(** * O3DE material generator: a shallow embedding of
      [cli/o3de_material_generator.py] and its properties.

    The script parses its command line with [getopt.getopt], optionally
    renames the texture files of the enabled map categories, and writes a
    JSON material file that references the textures it found.

    Modelling conventions.
    - Python [str] is [string], a character being a code point below 256;
      [==] on strings is [String.eqb].
    - The process runs on a POSIX host: [os.path.join] is [posixpath.join],
      [os.rename] silently replaces its destination.
    - The file system is a finite map from path strings to file contents.
      Paths are compared as strings, every directory is taken to exist and
      to be writable, so [os.rename] of an existing file and [open(p, 'w')]
      always succeed.
    - Standard output is the list of the arguments of the [print] calls, in
      order.
    - [sys.exit] is the [Exit] outcome of the [Py] monad; a [main] that
      returns normally leaves the interpreter with exit status 0. *)

From Stdlib Require Import Ascii ZArith.
From Stdlib Require DecimalString.
From stdpp Require Import gmap strings list.

Local Open Scope Z_scope.

(** ** Python string primitives *)

Module PyStr.

(** [s == t] *)
Definition eqb (s t : string) : bool := String.eqb s t.

(** [s.startswith(p)] *)
Definition startswith (s p : string) : bool := String.prefix p s.

(** [s.endswith(p)] *)
Definition endswith (s p : string) : bool :=
  String.prefix (String.rev p) (String.rev s).

(** [s[n:]] *)
Fixpoint drop (n : nat) (s : string) : string :=
  match n, s with
  | O, _ => s
  | S _, "" => ""
  | S n, String _ s => drop n s
  end.

(** [s[:-1]] *)
Fixpoint drop_last (s : string) : string :=
  match s with
  | "" => ""
  | String _ "" => ""
  | String c s => String c (drop_last s)
  end.

(** [s.replace(old, new)] for one-character [old] and [new]. *)
Fixpoint replace (old new : ascii) (s : string) : string :=
  match s with
  | "" => ""
  | String c s =>
      String (if Ascii.eqb c old then new else c) (replace old new s)
  end.

(** [s.index(c)], [None] standing for [ValueError]. *)
Fixpoint index (c : ascii) (s : string) : option nat :=
  match s with
  | "" => None
  | String d s => if Ascii.eqb d c then Some O else S <$> index c s
  end.

(** [s[:n]] *)
Fixpoint take (n : nat) (s : string) : string :=
  match n, s with
  | O, _ => ""
  | S _, "" => ""
  | S n, String c s => String c (take n s)
  end.

(** [x in l] for a list of strings. *)
Definition mem (x : string) (l : list string) : bool :=
  existsb (eqb x) l.

End PyStr.

(** ** [posixpath.join] with two arguments *)

Definition os_path_join (a b : string) : string :=
  if PyStr.startswith b "/" then b
  else if PyStr.eqb a "" || PyStr.endswith a "/" then a +:+ b
  else a +:+ "/" +:+ b.

(** ** [getopt.getopt] *)

Module Getopt.

(** A raised [GetoptError] carries its message. *)
Inductive except (A : Type) : Type :=
| Raise (msg : string)
| Ok (a : A).
Arguments Raise {A} msg.
Arguments Ok {A} a.

Definition optlist : Type := list (string * string).

Fixpoint short_has_arg (opt : ascii) (shortopts : string) : except bool :=
  match shortopts with
  | "" => Raise ("option -" +:+ String opt "" +:+ " not recognized")
  | String c rest =>
      if Ascii.eqb opt c && negb (Ascii.eqb c ":")
      then Ok (PyStr.startswith rest ":")
      else short_has_arg opt rest
  end.

Fixpoint do_shorts (opts : optlist) (optstring shortopts : string)
    (args : list string) : except (optlist * list string) :=
  match optstring with
  | "" => Ok (opts, args)
  | String opt optstring =>
      match short_has_arg opt shortopts with
      | Raise m => Raise m
      | Ok true =>
          if PyStr.eqb optstring "" then
            match args with
            | [] => Raise ("option -" +:+ String opt "" +:+
                           " requires argument")
            | optarg :: args =>
                Ok (opts ++ [("-" +:+ String opt "", optarg)], args)
            end
          else Ok (opts ++ [("-" +:+ String opt "", optstring)], args)
      | Ok false =>
          do_shorts (opts ++ [("-" +:+ String opt "", "")])
                    optstring shortopts args
      end
  end.

Definition long_has_args (opt : string) (longopts : list string)
    : except (bool * string) :=
  let possibilities :=
    List.filter (fun o => PyStr.startswith o opt) longopts in
  match possibilities with
  | [] => Raise ("option --" +:+ opt +:+ " not recognized")
  | unique_match :: others =>
      if PyStr.mem opt possibilities then Ok (false, opt)
      else if PyStr.mem (opt +:+ "=") possibilities then Ok (true, opt)
      else
        match others with
        | _ :: _ => Raise ("option --" +:+ opt +:+ " not a unique prefix")
        | [] =>
            if PyStr.endswith unique_match "="
            then Ok (true, PyStr.drop_last unique_match)
            else Ok (false, unique_match)
        end
  end.

Definition do_longs (opts : optlist) (opt : string)
    (longopts : list string) (args : list string)
    : except (optlist * list string) :=
  let '(opt, optarg) :=
    match PyStr.index "=" opt with
    | None => (opt, None)
    | Some i => (PyStr.take i opt, Some (PyStr.drop (S i) opt))
    end in
  match long_has_args opt longopts with
  | Raise m => Raise m
  | Ok (true, opt) =>
      match optarg, args with
      | None, [] => Raise ("option --" +:+ opt +:+ " requires argument")
      | None, optarg :: args => Ok (opts ++ [("--" +:+ opt, optarg)], args)
      | Some optarg, _ => Ok (opts ++ [("--" +:+ opt, optarg)], args)
      end
  | Ok (false, opt) =>
      match optarg with
      | Some _ =>
          Raise ("option --" +:+ opt +:+ " must not have an argument")
      | None => Ok (opts ++ [("--" +:+ opt, "")], args)
      end
  end.

(** The [while] loop of [getopt]; every iteration consumes at least
    [args[0]], so [length args] iterations are enough. *)
Fixpoint getopt_while (fuel : nat) (opts : optlist) (args : list string)
    (shortopts : string) (longopts : list string)
    : except (optlist * list string) :=
  match fuel, args with
  | S fuel, arg0 :: rest =>
      if PyStr.startswith arg0 "-" && negb (PyStr.eqb arg0 "-") then
        if PyStr.eqb arg0 "--" then Ok (opts, rest)
        else
          match
            (if PyStr.startswith arg0 "--"
             then do_longs opts (PyStr.drop 2 arg0) longopts rest
             else do_shorts opts (PyStr.drop 1 arg0) shortopts rest)
          with
          | Raise m => Raise m
          | Ok (opts, args) => getopt_while fuel opts args shortopts longopts
          end
      else Ok (opts, args)
  | _, _ => Ok (opts, args)
  end.

Definition getopt (args : list string) (shortopts : string)
    (longopts : list string) : except (optlist * list string) :=
  getopt_while (length args) [] args shortopts longopts.

End Getopt.

Import Getopt.

(** ** [json.dump] *)

Module Json.

#[local] Set Warnings "-register-all".

Inductive json : Type :=
| JStr (s : string)
| JInt (n : Z)
| JObj (members : list (string * json)).

Definition hex_digit (n : N) : ascii :=
  match n with
  | 0 => "0" | 1 => "1" | 2 => "2" | 3 => "3" | 4 => "4" | 5 => "5"
  | 6 => "6" | 7 => "7" | 8 => "8" | 9 => "9" | 10 => "a" | 11 => "b"
  | 12 => "c" | 13 => "d" | 14 => "e" | _ => "f"
  end%N%char.

(** ['\\u{0:04x}'.format(n)] for a character below 256. *)
Definition u_escape (c : ascii) : string :=
  let n := N_of_ascii c in
  "\u00" +:+ String (hex_digit (n / 16)) (String (hex_digit (n mod 16)) "").

(** The replacement [ESCAPE_ASCII] makes for one character: [ESCAPE_DCT]
    first, [\uXXXX] for what is left outside [' '..'~']. *)
Definition escape_char (c : ascii) : string :=
  if Ascii.eqb c "\" then "\\"
  else if Ascii.eqb c "034" then String "\" (String "034" "")
  else if Ascii.eqb c "008" then "\b"
  else if Ascii.eqb c "012" then "\f"
  else if Ascii.eqb c "010" then "\n"
  else if Ascii.eqb c "013" then "\r"
  else if Ascii.eqb c "009" then "\t"
  else if (N_of_ascii c <? 32)%N || (126 <? N_of_ascii c)%N then u_escape c
  else String c "".

Fixpoint escape (s : string) : string :=
  match s with
  | "" => ""
  | String c s => escape_char c +:+ escape s
  end.

Definition quote : string := String "034" "".

(** [py_encode_basestring_ascii] *)
Definition encode_basestring_ascii (s : string) : string :=
  quote +:+ escape s +:+ quote.

Definition int_repr (n : Z) : string :=
  DecimalString.NilZero.string_of_int (Z.to_int n).

(** [json.dumps] with the default separators [', '] and [': ']. *)
Fixpoint dumps (j : json) : string :=
  match j with
  | JStr s => encode_basestring_ascii s
  | JInt n => int_repr n
  | JObj members =>
      let fix items (first : bool) (ms : list (string * json)) : string :=
        match ms with
        | [] => ""
        | (k, v) :: ms =>
            (if first then "" else ", ") +:+
            encode_basestring_ascii k +:+ ": " +:+ dumps v +:+
            items false ms
        end in
      "{" +:+ items true members +:+ "}"
  end.

End Json.

Import Json.

(** ** Python [dict] with string keys: insertion ordered, [d[k] = v] updates
    an existing key in place and appends a new one. *)

Fixpoint dict_set {V : Type} (k : string) (v : V) (d : list (string * V))
    : list (string * V) :=
  match d with
  | [] => [(k, v)]
  | (k', v') :: d =>
      if PyStr.eqb k' k then (k', v) :: d else (k', v') :: dict_set k v d
  end.

Definition dict_keys {V : Type} (d : list (string * V)) : list string :=
  d.*1.

(** ** The configuration record *)

Record BuildConfig : Type := mkBuildConfig {
  export_occ : bool;
  export_cav : bool;
  export_dif : bool;
  export_dis : bool;
  export_emi : bool;
  export_met : bool;
  export_ddn : bool;
  export_rou : bool;
  input_file_name : string;
  output_file_name : string;
  textures_dir_path : string;
  assets_root_path : string
}.

(** The class attributes of [BuildConfig]; [cwd] is the value [os.getcwd()]
    had when the class body ran. *)
Definition default_config (cwd : string) : BuildConfig :=
  {| export_occ := false; export_cav := false; export_dif := false;
     export_dis := false; export_emi := false; export_met := false;
     export_ddn := false; export_rou := false;
     input_file_name := ""; output_file_name := "";
     textures_dir_path := cwd; assets_root_path := "Assets" |}.

Definition set_export_occ (b : bool) (c : BuildConfig) : BuildConfig :=
  mkBuildConfig b (export_cav c) (export_dif c) (export_dis c) (export_emi c)
    (export_met c) (export_ddn c) (export_rou c) (input_file_name c)
    (output_file_name c) (textures_dir_path c) (assets_root_path c).
Definition set_export_cav (b : bool) (c : BuildConfig) : BuildConfig :=
  mkBuildConfig (export_occ c) b (export_dif c) (export_dis c) (export_emi c)
    (export_met c) (export_ddn c) (export_rou c) (input_file_name c)
    (output_file_name c) (textures_dir_path c) (assets_root_path c).
Definition set_export_dif (b : bool) (c : BuildConfig) : BuildConfig :=
  mkBuildConfig (export_occ c) (export_cav c) b (export_dis c) (export_emi c)
    (export_met c) (export_ddn c) (export_rou c) (input_file_name c)
    (output_file_name c) (textures_dir_path c) (assets_root_path c).
Definition set_export_dis (b : bool) (c : BuildConfig) : BuildConfig :=
  mkBuildConfig (export_occ c) (export_cav c) (export_dif c) b (export_emi c)
    (export_met c) (export_ddn c) (export_rou c) (input_file_name c)
    (output_file_name c) (textures_dir_path c) (assets_root_path c).
Definition set_export_emi (b : bool) (c : BuildConfig) : BuildConfig :=
  mkBuildConfig (export_occ c) (export_cav c) (export_dif c) (export_dis c) b
    (export_met c) (export_ddn c) (export_rou c) (input_file_name c)
    (output_file_name c) (textures_dir_path c) (assets_root_path c).
Definition set_export_met (b : bool) (c : BuildConfig) : BuildConfig :=
  mkBuildConfig (export_occ c) (export_cav c) (export_dif c) (export_dis c)
    (export_emi c) b (export_ddn c) (export_rou c) (input_file_name c)
    (output_file_name c) (textures_dir_path c) (assets_root_path c).
Definition set_export_ddn (b : bool) (c : BuildConfig) : BuildConfig :=
  mkBuildConfig (export_occ c) (export_cav c) (export_dif c) (export_dis c)
    (export_emi c) (export_met c) b (export_rou c) (input_file_name c)
    (output_file_name c) (textures_dir_path c) (assets_root_path c).
Definition set_export_rou (b : bool) (c : BuildConfig) : BuildConfig :=
  mkBuildConfig (export_occ c) (export_cav c) (export_dif c) (export_dis c)
    (export_emi c) (export_met c) (export_ddn c) b (input_file_name c)
    (output_file_name c) (textures_dir_path c) (assets_root_path c).
Definition set_input_file_name (s : string) (c : BuildConfig) : BuildConfig :=
  mkBuildConfig (export_occ c) (export_cav c) (export_dif c) (export_dis c)
    (export_emi c) (export_met c) (export_ddn c) (export_rou c) s
    (output_file_name c) (textures_dir_path c) (assets_root_path c).
Definition set_output_file_name (s : string) (c : BuildConfig) : BuildConfig :=
  mkBuildConfig (export_occ c) (export_cav c) (export_dif c) (export_dis c)
    (export_emi c) (export_met c) (export_ddn c) (export_rou c)
    (input_file_name c) s (textures_dir_path c) (assets_root_path c).
Definition set_textures_dir_path (s : string) (c : BuildConfig) : BuildConfig :=
  mkBuildConfig (export_occ c) (export_cav c) (export_dif c) (export_dis c)
    (export_emi c) (export_met c) (export_ddn c) (export_rou c)
    (input_file_name c) (output_file_name c) s (assets_root_path c).
Definition set_assets_root_path (s : string) (c : BuildConfig) : BuildConfig :=
  mkBuildConfig (export_occ c) (export_cav c) (export_dif c) (export_dis c)
    (export_emi c) (export_met c) (export_ddn c) (export_rou c)
    (input_file_name c) (output_file_name c) (textures_dir_path c) s.

(** ** The interpreter state and the [Py] monad *)

Record state : Type := mkState {
  st_config : BuildConfig;               (* the [config] object *)
  st_material : list (string * string);  (* [material['propertyValues']] *)
  st_files : gmap string string;         (* the file system *)
  st_stdout : list string                (* what [print] wrote so far *)
}.

Inductive result (A : Type) : Type :=
| Ret (a : A)
| Exit (code : Z).
Arguments Ret {A} a.
Arguments Exit {A} code.

Definition Py (A : Type) : Type := state → result A * state.

(** A computation returns a value or leaves through [sys.exit]; either way
    it hands on the state. *)
Definition ret {A : Type} (a : A) : Py A := λ st, (Ret a, st).

Definition bind {A B : Type} (m : Py A) (k : A → Py B) : Py B := λ st,
  match m st with
  | (Ret a, st') => k a st'
  | (Exit code, st') => (Exit code, st')
  end.

Declare Scope py_scope.
Delimit Scope py_scope with py.
Notation "x ← y ; z" := (bind y (λ x, z))
  (at level 20, y at level 100, z at level 200, only parsing) : py_scope.
Notation "x ;; z" := (bind x (λ _, z))
  (at level 100, z at level 200, only parsing, right associativity) : py_scope.
Local Open Scope py_scope.

(** [sys.exit(code)] *)
Definition sys_exit {A : Type} (code : Z) : Py A := λ st, (Exit code, st).

(** [print(line)] *)
Definition print (line : string) : Py unit := λ st,
  (Ret tt, mkState (st_config st) (st_material st) (st_files st)
                   (st_stdout st ++ [line])).

(** Reading the [config] object and assigning to its attributes. *)
Definition get_config : Py BuildConfig := λ st, (Ret (st_config st), st).

Definition modify_config (f : BuildConfig → BuildConfig) : Py unit := λ st,
  (Ret tt, mkState (f (st_config st)) (st_material st) (st_files st)
                   (st_stdout st)).

(** Reading and updating [material['propertyValues']]. *)
Definition get_material : Py (list (string * string)) := λ st,
  (Ret (st_material st), st).

Definition modify_material
    (f : list (string * string) → list (string * string)) : Py unit := λ st,
  (Ret tt, mkState (st_config st) (f (st_material st)) (st_files st)
                   (st_stdout st)).

Definition set_files (fs : gmap string string) (st : state) : state :=
  mkState (st_config st) (st_material st) fs (st_stdout st).

(** [os.path.exists(path)] *)
Definition os_path_exists (path : string) : Py bool := λ st,
  (Ret (bool_decide (is_Some (st_files st !! path))), st).

(** [os.rename(src, dst)]; a missing [src] is an uncaught
    [FileNotFoundError], which ends the process with status 1. *)
Definition os_rename (src dst : string) : Py unit := λ st,
  match st_files st !! src with
  | Some data => (Ret tt, set_files (<[dst := data]> (delete src (st_files st))) st)
  | None => (Exit 1, st)
  end.

(** [with open(path, 'w') as f: f.write(data)] *)
Definition write_file (path data : string) : Py unit := λ st,
  (Ret tt, set_files (<[path := data]> (st_files st)) st).

(** [if b: m] *)
Definition when (b : bool) (m : Py unit) : Py unit :=
  if b then m else ret tt.

(** [for x in l: body(x)] *)
Fixpoint for_each {A : Type} (l : list A) (body : A → Py unit) : Py unit :=
  match l with
  | [] => ret tt
  | x :: l => body x ;; for_each l body
  end.

(** ** The script *)

Definition newline : string := String "010" "".

Definition help (no_logo : bool) : Py unit :=
  if negb no_logo then print "O3DE Material Generator for" else ret tt.

Definition error : Py unit :=
  print ("Invalid arguments passed to the script." +:+ newline) ;;
  help true.

Definition setup_default (config : BuildConfig) : BuildConfig :=
  let config := set_export_dif true config in
  let config := set_export_ddn true config in
  let config := set_export_occ true config in
  let config := set_export_met true config in
  set_export_rou true config.

Definition setup_all (config : BuildConfig) : BuildConfig :=
  let config := setup_default config in
  let config := set_export_emi true config in
  let config := set_export_cav true config in
  set_export_dis true config.

(** One entry of [maps]: display name, file suffix, property key, enabled. *)
Definition map_entry : Type := string * string * string * bool.

Definition maps (config : BuildConfig) : list map_entry :=
  [("Ambient Occlusion", "ao", "occlusion.diffuseTextureMap", export_occ config);
   ("Specular Cavity", "cavity", "occlusion.specularTextureMap", export_cav config);
   ("Diffuse Color", "albedo", "baseColor.textureMap", export_dif config);
   ("Height", "displacement", "parallax.textureMap", export_dis config);
   ("Emissive", "emissive", "emissive.textureMap", export_emi config);
   ("Metallic", "metalness", "metallic.textureMap", export_met config);
   ("Normal", "normal", "normal.textureMap", export_ddn config);
   ("Roughness", "roughness", "roughness.textureMap", export_rou config)].

(** [os.path.join] with a single argument returns it. *)
Definition make_map_name (file_name map_name : string) : string :=
  file_name +:+ "_" +:+ map_name +:+ ".tiff".

Definition make_file_map_name (config : BuildConfig)
    (file_name map_name : string) : string :=
  os_path_join (textures_dir_path config) (make_map_name file_name map_name).

Definition make_asset_map_name (config : BuildConfig) (map_name : string)
    : string :=
  os_path_join (assets_root_path config)
               (make_map_name (output_file_name config) map_name).

Definition not_renamed_msg (name file map : string) : string :=
  "    [E] The " +:+ name +:+ " Map was enabled, but the file " +:+ file +:+
  "_" +:+ map +:+ ".tiff do not exists. " +:+ "The file was not renamed.".

Definition not_added_msg (name file map : string) : string :=
  "    [E] The " +:+ name +:+ " Map was enabled, but the file " +:+ file +:+
  "_" +:+ map +:+ ".tiff do not exists. " +:+
  "The file was not added in the material.".

Definition rename_one (e : map_entry) : Py unit :=
  let '(name, m, _, enabled) := e in
  if enabled then
    config ← get_config;
    found ← os_path_exists (make_file_map_name config (input_file_name config) m);
    if found then
      os_rename (make_file_map_name config (input_file_name config) m)
                (make_file_map_name config (output_file_name config) m)
    else print (not_renamed_msg name (output_file_name config) m)
  else ret tt.

Definition rename_texture_files (verbose : bool) (maps : list map_entry)
    : Py unit :=
  config ← get_config;
  if PyStr.eqb (output_file_name config) "" ||
     PyStr.eqb (output_file_name config) (input_file_name config)
  then
    when verbose (print "    [V] Skipping texture files renaming.") ;;
    modify_config (λ c, set_output_file_name (input_file_name c) c)
  else
    when verbose (print "    [V] Renaming texture files...") ;;
    for_each maps rename_one ;;
    when verbose (print "    [V] Texture files renamed.").

Definition add_one (e : map_entry) : Py unit :=
  let '(name, m, key, enabled) := e in
  if enabled then
    config ← get_config;
    found ← os_path_exists (make_file_map_name config (output_file_name config) m);
    if found then
      modify_material
        (dict_set key (PyStr.replace "\" "/" (make_asset_map_name config m)))
    else print (not_added_msg name (output_file_name config) m)
  else ret tt.

Definition make_material (maps : list map_entry) : Py unit :=
  for_each maps add_one.

(** The [material] dictionary as a JSON value. *)
Definition material_json (property_values : list (string * string)) : json :=
  JObj [("materialType", JStr "Materials/Types/StandardPBR.materialtype");
        ("materialTypeVersion", JInt 4);
        ("propertyValues", JObj (prod_map id JStr <$> property_values))].

Definition material_path (config : BuildConfig) : string :=
  os_path_join (textures_dir_path config)
               (output_file_name config +:+ ".material").

Definition build (verbose : bool) : Py unit :=
  config ← get_config;
  let maps := maps config in
  modify_material (λ _, []) ;;
  when verbose (print "[V] Building material file...") ;;
  rename_texture_files verbose maps ;;
  make_material maps ;;
  config ← get_config;
  material ← get_material;
  write_file (material_path config) (dumps (material_json material)) ;;
  when verbose (print "[V] Material file build process complete.").

Definition shortopts : string := "hvf:o:d:a:".
Definition longopts : list string :=
  ["occ"; "cav"; "dif"; "dis"; "emi"; "met"; "ddn"; "rou"; "default"; "all"].

(** The body of [for opt, arg in opts]; the result is the new value of the
    local variable [verbose]. *)
Definition handle_option (verbose : bool) (o : string * string) : Py bool :=
  let '(opt, arg) := o in
  if PyStr.eqb opt "-h" then help false ;; sys_exit 0
  else if PyStr.eqb opt "-v" then ret true
  else if PyStr.eqb opt "-f" then
    modify_config (set_input_file_name arg) ;; ret verbose
  else if PyStr.eqb opt "-o" then
    modify_config (set_output_file_name arg) ;; ret verbose
  else if PyStr.eqb opt "-d" then
    modify_config (set_textures_dir_path arg) ;; ret verbose
  else if PyStr.eqb opt "-a" then
    modify_config (set_assets_root_path arg) ;; ret verbose
  else if PyStr.eqb opt "--occ" then
    modify_config (set_export_occ true) ;; ret verbose
  else if PyStr.eqb opt "--cav" then
    modify_config (set_export_cav true) ;; ret verbose
  else if PyStr.eqb opt "--dif" then
    modify_config (set_export_dif true) ;; ret verbose
  else if PyStr.eqb opt "--dis" then
    modify_config (set_export_dis true) ;; ret verbose
  else if PyStr.eqb opt "--emi" then
    modify_config (set_export_emi true) ;; ret verbose
  else if PyStr.eqb opt "--met" then
    modify_config (set_export_met true) ;; ret verbose
  else if PyStr.eqb opt "--ddn" then
    modify_config (set_export_ddn true) ;; ret verbose
  else if PyStr.eqb opt "--rou" then
    modify_config (set_export_rou true) ;; ret verbose
  else if PyStr.eqb opt "--default" then
    modify_config setup_default ;; ret verbose
  else if PyStr.eqb opt "--all" then
    modify_config setup_all ;; ret verbose
  else ret verbose.

Fixpoint handle_options (opts : list (string * string)) (verbose : bool)
    : Py bool :=
  match opts with
  | [] => ret verbose
  | o :: opts => verbose ← handle_option verbose o; handle_options opts verbose
  end.

Definition main (argv : list string) : Py unit :=
  match getopt argv shortopts longopts with
  | Raise _ => error ;; sys_exit 1
  | Ok (opts, args) =>
      (if (length opts =? 0)%nat then help false ;; sys_exit 0 else ret tt) ;;
      verbose ← handle_options opts false;
      config ← get_config;
      (if PyStr.eqb (input_file_name config) "" then error ;; sys_exit 1
       else ret tt) ;;
      build verbose
  end.

(** ** Running the script *)

(** The state [main] starts in: a fresh [BuildConfig()], nothing printed. *)
Definition initial_state (cwd : string) (fs : gmap string string) : state :=
  mkState (default_config cwd) [] fs [].

(** The exit status of the process. *)
Definition exit_code {A : Type} (r : result A) : Z :=
  match r with
  | Ret _ => 0
  | Exit code => code
  end.

Definition run (cwd : string) (fs : gmap string string) (argv : list string)
    : result unit * state :=
  main argv (initial_state cwd fs).

(** * Definitions used to state and prove the properties *)

(** ** State transformers of the steps of [build]

    Every step of [build] returns normally; what it does to the state is
    a function on states, and the monadic code is shown below to run as
    that function. *)

(** [runs m f]: the computation [m] returns normally and changes the state
    by [f]. *)
Definition runs (m : Py unit) (f : state → state) : Prop :=
  ∀ st, m st = (Ret tt, f st).

(** The state after [print(line)]. *)
Definition print_state (line : string) (st : state) : state :=
  mkState (st_config st) (st_material st) (st_files st) (st_stdout st ++ [line]).

(** The state after [if b: print(line)]. *)
Definition when_print (b : bool) (line : string) (st : state) : state :=
  if b then print_state line st else st.

(** The state with another value of the [config] object. *)
Definition with_config (config : BuildConfig) (st : state) : state :=
  mkState config (st_material st) (st_files st) (st_stdout st).

(** One iteration of the loop of [rename_texture_files]. *)
Definition rename_step (e : map_entry) (st : state) : state :=
  let '(name, m, _, enabled) := e in
  let config := st_config st in
  if enabled then
    match st_files st !! make_file_map_name config (input_file_name config) m with
    | Some data =>
        set_files (<[make_file_map_name config (output_file_name config) m := data]>
                     (delete (make_file_map_name config (input_file_name config) m)
                             (st_files st))) st
    | None => print_state (not_renamed_msg name (output_file_name config) m) st
    end
  else st.

(** One iteration of the loop of [make_material]. *)
Definition add_step (e : map_entry) (st : state) : state :=
  let '(name, m, key, enabled) := e in
  let config := st_config st in
  if enabled then
    match st_files st !! make_file_map_name config (output_file_name config) m with
    | Some _ =>
        mkState config
          (dict_set key (PyStr.replace "\" "/" (make_asset_map_name config m))
                    (st_material st))
          (st_files st) (st_stdout st)
    | None => print_state (not_added_msg name (output_file_name config) m) st
    end
  else st.

(** The state after [rename_texture_files()]. *)
Definition rename_state (verbose : bool) (maps : list map_entry) (st : state)
    : state :=
  let config := st_config st in
  if PyStr.eqb (output_file_name config) "" ||
     PyStr.eqb (output_file_name config) (input_file_name config)
  then
    let st := when_print verbose "    [V] Skipping texture files renaming." st in
    mkState (set_output_file_name (input_file_name (st_config st)) (st_config st))
            (st_material st) (st_files st) (st_stdout st)
  else
    let st := when_print verbose "    [V] Renaming texture files..." st in
    let st := foldl (λ s e, rename_step e s) st maps in
    when_print verbose "    [V] Texture files renamed." st.

(** The state [rename_texture_files] is called in. *)
Definition build_entry_state (verbose : bool) (st : state) : state :=
  when_print verbose "[V] Building material file..."
    (mkState (st_config st) [] (st_files st) (st_stdout st)).

(** The state in which the material is assembled: [build] has reset
    [material] and renamed the texture files. *)
Definition renamed_state (verbose : bool) (st : state) : state :=
  let ms := maps (st_config st) in
  let st := mkState (st_config st) [] (st_files st) (st_stdout st) in
  let st := when_print verbose "[V] Building material file..." st in
  rename_state verbose ms st.

(** The state once [make_material] has returned. *)
Definition assembled_state (verbose : bool) (st : state) : state :=
  foldl (λ s e, add_step e s) (renamed_state verbose st) (maps (st_config st)).

(** The state [build] returns in. *)
Definition built_state (verbose : bool) (st : state) : state :=
  let st := assembled_state verbose st in
  let st :=
    set_files (<[material_path (st_config st) :=
                 dumps (material_json (st_material st))]> (st_files st)) st in
  when_print verbose "[V] Material file build process complete." st.

(** ** Options and the paths through [main] *)

(** What [help()] and [error()] print. *)
Definition help_text : string := "O3DE Material Generator for".
Definition error_text : string :=
  "Invalid arguments passed to the script." +:+ newline.

(** What one option other than [-h] does to the configuration. *)
Definition apply_option (o : string * string) (config : BuildConfig)
    : BuildConfig :=
  let '(opt, arg) := o in
  if PyStr.eqb opt "-f" then set_input_file_name arg config
  else if PyStr.eqb opt "-o" then set_output_file_name arg config
  else if PyStr.eqb opt "-d" then set_textures_dir_path arg config
  else if PyStr.eqb opt "-a" then set_assets_root_path arg config
  else if PyStr.eqb opt "--occ" then set_export_occ true config
  else if PyStr.eqb opt "--cav" then set_export_cav true config
  else if PyStr.eqb opt "--dif" then set_export_dif true config
  else if PyStr.eqb opt "--dis" then set_export_dis true config
  else if PyStr.eqb opt "--emi" then set_export_emi true config
  else if PyStr.eqb opt "--met" then set_export_met true config
  else if PyStr.eqb opt "--ddn" then set_export_ddn true config
  else if PyStr.eqb opt "--rou" then set_export_rou true config
  else if PyStr.eqb opt "--default" then setup_default config
  else if PyStr.eqb opt "--all" then setup_all config
  else config.

(** [name] is among the parsed options. *)
Definition has_option (name : string) (opts : list (string * string)) : bool :=
  existsb (λ o, PyStr.eqb o.1 name) opts.

(** [reaches_build cwd fs argv verbose st]: on [argv], [main] gets as far as
    calling [build(config, verbose)], in state [st]. *)
Definition reaches_build (cwd : string) (fs : gmap string string)
    (argv : list string) (verbose : bool) (st : state) : Prop :=
  ∃ opts args,
    getopt argv shortopts longopts = Ok (opts, args) ∧
    opts ≠ [] ∧
    handle_options opts false (initial_state cwd fs) = (Ret verbose, st) ∧
    input_file_name (st_config st) ≠ "".

(** The configuration [main] holds when the option loop has ended. *)
Definition configure (cwd : string) (argv : list string) : option BuildConfig :=
  match getopt argv shortopts longopts with
  | Ok (opts, _) =>
      match handle_options opts false (initial_state cwd ∅) with
      | (Ret _, st) => Some (st_config st)
      | (Exit _, _) => None
      end
  | Raise _ => None
  end.

(** Whether the option loop ended the process, and with which status. *)
Definition exit_status {A : Type} (r : result A) : option Z :=
  match r with
  | Ret _ => None
  | Exit code => Some code
  end.

(** The options without the occurrences of [-v]. *)
Definition drop_v (opts : list (string * string)) : list (string * string) :=
  List.filter (λ o, negb (PyStr.eqb o.1 "-v")) opts.

(** ** Categories and their flags *)

(** The eight map categories. *)
Inductive category : Type := Occ | Cav | Dif | Dis | Emi | Met | Ddn | Rou.

#[global] Instance category_eq_dec : EqDecision category.
Proof. solve_decision. Defined.

(** The enable flag a category has in a configuration. *)
Definition exports (config : BuildConfig) (k : category) : bool :=
  match k with
  | Occ => export_occ config
  | Cav => export_cav config
  | Dif => export_dif config
  | Dis => export_dis config
  | Emi => export_emi config
  | Met => export_met config
  | Ddn => export_ddn config
  | Rou => export_rou config
  end.




(** ** The map table and its files *)

(** The characters of a string, to reason on endings with list lemmas. *)
Definition chars (s : string) : list ascii := String.list_ascii_of_string s.

(** The file suffixes of the map table. *)
Definition suffixes : list string :=
  ["ao"; "cavity"; "albedo"; "displacement"; "emissive"; "metalness";
   "normal"; "roughness"].

(** The ending [_{suffix}.tiff] of the file name of a category. *)
Definition tail_of (m : string) : list ascii := chars ("_" +:+ m +:+ ".tiff").

(** The file suffix and the property key of an entry of [maps]. *)
Definition entry_suffix (e : map_entry) : string := e.1.1.2.
Definition entry_key (e : map_entry) : string := e.1.2.

(** The source and the destination of the renaming of one category. *)
Definition src_of (config : BuildConfig) (m : string) : string :=
  make_file_map_name config (input_file_name config) m.
Definition dst_of (config : BuildConfig) (m : string) : string :=
  make_file_map_name config (output_file_name config) m.

(** The value [make_material] stores for a category. *)
Definition asset_reference (config : BuildConfig) (m : string) : string :=
  PyStr.replace "\" "/" (make_asset_map_name config m).


(** ** The log *)

(** [s.lstrip(' ')] *)
Fixpoint lstrip (s : string) : string :=
  match s with
  | "" => ""
  | String c s' => if Ascii.eqb c " " then lstrip s' else s
  end.

(** A log line of the verbose mode: [[V]] after the indentation. *)
Definition is_verbose_line (line : string) : bool :=
  PyStr.startswith (lstrip line) "[V]".

(** The output without the lines of the verbose mode. *)
Definition quiet (out : list string) : list string :=
  List.filter (λ line, negb (is_verbose_line line)) out.

(** Two states, the same but for verbose log lines. *)
Definition same_but_log (st st' : state) : Prop :=
  st_config st = st_config st' ∧
  st_material st = st_material st' ∧
  st_files st = st_files st' ∧
  quiet (st_stdout st) = quiet (st_stdout st').

(** ** Three claims as the specification words them *)

(** The usage-error claim as the specification words it: the argument
    vector is malformed, or it parses, leaves the input base name empty and
    has an option other than [-h]; then an error is printed, the exit status
    is 1 and the files are untouched. *)
Definition usage_error_claim (cwd : string) (fs : gmap string string)
    (argv : list string) : Prop :=
  (∃ msg, getopt argv shortopts longopts = Raise msg) ∨
  (∃ opts args,
     getopt argv shortopts longopts = Ok (opts, args) ∧
     input_file_name
       (st_config (handle_options opts false (initial_state cwd fs)).2) = "" ∧
     ∃ o, o ∈ opts ∧ o.1 ≠ "-h") →
  ∃ st, run cwd fs argv = (Exit 1, st) ∧
        st_files st = fs ∧
        st_stdout st = [error_text].


(** The claim on [-v] as the specification words it: two argument vectors
    whose parsed options differ only by occurrences of [-v] give the same
    exit status and the same files, and the same output once the verbose
    lines are left out. *)
Definition verbose_claim (cwd : string) (fs : gmap string string)
    (argv1 argv2 : list string) : Prop :=
  ∀ opts1 args1 opts2 args2,
    getopt argv1 shortopts longopts = Ok (opts1, args1) →
    getopt argv2 shortopts longopts = Ok (opts2, args2) →
    drop_v opts1 = drop_v opts2 →
    exit_code (run cwd fs argv1).1 = exit_code (run cwd fs argv2).1 ∧
    st_files (run cwd fs argv1).2 = st_files (run cwd fs argv2).2 ∧
    quiet (st_stdout (run cwd fs argv1).2) =
      quiet (st_stdout (run cwd fs argv2).2).

(** ** Definitions for further properties of the script *)

(** The option names [main] has a branch for. *)
Definition known_options : list string :=
  ["-h"; "-v"; "-f"; "-o"; "-d"; "-a"; "--occ"; "--cav"; "--dif"; "--dis";
   "--emi"; "--met"; "--ddn"; "--rou"; "--default"; "--all"].

(** The options that take an argument. *)
Definition argument_options : list string := ["-f"; "-o"; "-d"; "-a"].

(** What [getopt] returns for an option: a name [main] knows, with an
    empty argument unless the option takes one. *)
Definition well_formed_option (o : string * string) : Prop :=
  o.1 ∈ known_options ∧ (o.1 ∉ argument_options → o.2 = "").

(** An argument at which [getopt] stops looking for options. *)
Definition stops_options (a : string) : bool :=
  negb (PyStr.startswith a "-" && negb (PyStr.eqb a "-")) || PyStr.eqb a "--".

(** The argument of the last occurrence of the option [name], or [default]
    when the option does not occur. *)
Definition last_arg (name default : string) (opts : list (string * string))
    : string :=
  foldl (λ acc o, if PyStr.eqb o.1 name then o.2 else acc) default opts.

(** What [make_material] lists for an entry of [maps], given the files. *)
Definition listed_entry (config : BuildConfig) (fs : gmap string string)
    (e : map_entry) : option (string * string) :=
  let '(_, m, key, enabled) := e in
  if enabled && bool_decide (is_Some (fs !! dst_of config m))
  then Some (key, asset_reference config m)
  else None.

(** The references of the enabled categories whose file exists, in the
    order of the map table. *)
Definition listing (config : BuildConfig) (fs : gmap string string)
    : list (string * string) :=
  omap (listed_entry config fs) (maps config).



(** The five log lines of the verbose mode. *)
Definition verbose_lines : list string :=
  ["[V] Building material file...";
   "    [V] Skipping texture files renaming.";
   "    [V] Renaming texture files...";
   "    [V] Texture files renamed.";
   "[V] Material file build process complete."].

(** The state with another textures directory in its configuration. *)
Definition retarget (dir : string) (st : state) : state :=
  with_config (set_textures_dir_path dir (st_config st)) st.

(** [st] has the textures directory of [st0]. *)
Definition keeps_dir (st0 st : state) : Prop :=
  textures_dir_path (st_config st) = textures_dir_path (st_config st0).

(** The configuration that undoes a renaming: the two base names swapped. *)
Definition swap_names (config : BuildConfig) : BuildConfig :=
  set_input_file_name (output_file_name config)
    (set_output_file_name (input_file_name config) config).

(** * Properties *)

(** ** Strings and paths *)

Lemma eqb_true s t : PyStr.eqb s t = true ↔ s = t.
Proof. apply String.eqb_eq. Qed.

Lemma eqb_false s t : PyStr.eqb s t = false ↔ s ≠ t.
Proof. apply String.eqb_neq. Qed.

Lemma app_assoc_str (a b c : string) : (a +:+ b) +:+ c = a +:+ b +:+ c.
Proof.
  induction a as [|x a IH]; [done|].
  change (String x ((a +:+ b) +:+ c) = String x (a +:+ b +:+ c)).
  by rewrite IH.
Qed.

Lemma length_app_str (x y : string) :
  String.length (x +:+ y) = (String.length x + String.length y)%nat.
Proof.
  induction x as [|c x IH]; [done|].
  change (S (String.length (x +:+ y)) = S (String.length x + String.length y)).
  by rewrite IH.
Qed.

Lemma app_inj_r (a b c : string) : a +:+ c = b +:+ c → a = b.
Proof.
  revert b. induction a as [|x a IH]; intros [|y b] H.
  - done.
  - apply (f_equal String.length) in H.
    change (String.length c = S (String.length (b +:+ c))) in H.
    rewrite length_app_str in H. lia.
  - apply (f_equal String.length) in H.
    change (S (String.length (a +:+ c)) = String.length c) in H.
    rewrite length_app_str in H. lia.
  - change (String x (a +:+ c) = String y (b +:+ c)) in H.
    injection H as -> H. f_equal. by apply IH.
Qed.

Lemma chars_app (a b : string) : chars (a +:+ b) = chars a ++ chars b.
Proof.
  induction a as [|x a IH]; [done|].
  change (x :: chars (a +:+ b) = x :: chars a ++ chars b). by rewrite IH.
Qed.

(** [posixpath.join] keeps its second argument at the end of the result. *)
Lemma os_path_join_suffix a b : ∃ p, os_path_join a b = p +:+ b.
Proof.
  unfold os_path_join.
  destruct (PyStr.startswith b "/"); [by exists ""|].
  destruct (_ || _); [by exists a|].
  exists (a +:+ "/"). symmetry. apply app_assoc_str.
Qed.

(** Joining two relative names under one directory keeps them apart. *)
Lemma os_path_join_inj a b b' :
  PyStr.startswith b "/" = false → PyStr.startswith b' "/" = false →
  os_path_join a b = os_path_join a b' → b = b'.
Proof.
  unfold os_path_join. intros -> ->.
  destruct (_ || _); intros H.
  - by apply (inj (String.app a)) in H.
  - apply (inj (String.app a)) in H. by apply (inj (String.app "/")) in H.
Qed.

Lemma make_map_name_inj x y m : make_map_name x m = make_map_name y m → x = y.
Proof. unfold make_map_name. apply app_inj_r. Qed.

(** Two different categories never name the same file, whatever the base
    names and directories. *)
Lemma make_file_map_name_disjoint a b x y m m' :
  m ∈ suffixes → m' ∈ suffixes → m ≠ m' →
  os_path_join a (make_map_name x m) ≠ os_path_join b (make_map_name y m').
Proof.
  intros Hm Hm' Hne Heq.
  destruct (os_path_join_suffix a (make_map_name x m)) as [p Hp].
  destruct (os_path_join_suffix b (make_map_name y m')) as [q Hq].
  rewrite Hp, Hq in Heq. unfold make_map_name in Heq.
  apply (f_equal chars) in Heq. rewrite !chars_app in Heq.
  assert (H1 : tail_of m `suffix_of` chars p ++ chars x ++ tail_of m).
  { exists (chars p ++ chars x). by rewrite <- app_assoc. }
  assert (H2 : tail_of m' `suffix_of` chars p ++ chars x ++ tail_of m).
  { unfold tail_of at 2. rewrite !chars_app. rewrite Heq.
    exists (chars q ++ chars y). unfold tail_of.
    by rewrite !chars_app, <- !app_assoc. }
  destruct (suffix_weak_total _ _ _ H1 H2) as [H|H]; revert H;
    unfold suffixes in Hm, Hm';
    repeat (apply elem_of_cons in Hm as [->|Hm]);
    try (by apply elem_of_nil in Hm);
    repeat (apply elem_of_cons in Hm' as [->|Hm']);
    try (by apply elem_of_nil in Hm');
    try done; intros H%(bool_decide_pack _); by vm_compute in H.
Qed.

(** ** The steps of [build] run as their state transformers *)

Lemma runs_when b line : runs (when b (print line)) (when_print b line).
Proof. by destruct b. Qed.

Lemma runs_for_each {A : Type} (body : A → Py unit) (step : A → state → state)
    (l : list A) :
  (∀ x, runs (body x) (step x)) →
  runs (for_each l body) (λ st, foldl (λ s x, step x s) st l).
Proof.
  intros Hbody. induction l as [|x l IH]; intros st; [done|].
  cbn. unfold bind. by rewrite Hbody, IH.
Qed.

Lemma runs_rename_one e : runs (rename_one e) (rename_step e).
Proof.
  destruct e as [[[name m] key] [|]]; intros st; [|done].
  unfold rename_one, rename_step, bind, get_config, os_path_exists, os_rename.
  destruct (st_files st !! _) as [data|] eqn:Hsrc.
  - rewrite bool_decide_eq_true_2 by eauto. by rewrite Hsrc.
  - rewrite bool_decide_eq_false_2; [done|]. by intros [? ?].
Qed.

Lemma runs_add_one e : runs (add_one e) (add_step e).
Proof.
  destruct e as [[[name m] key] [|]]; intros st; [|done].
  unfold add_one, add_step, bind, get_config, os_path_exists.
  destruct (st_files st !! _) as [data|] eqn:Hdst.
  - by rewrite bool_decide_eq_true_2 by eauto.
  - rewrite bool_decide_eq_false_2; [done|]. by intros [? ?].
Qed.

Lemma runs_rename_texture_files verbose ms :
  runs (rename_texture_files verbose ms) (rename_state verbose ms).
Proof.
  intros st. unfold rename_texture_files, rename_state.
  unfold bind at 1. unfold get_config at 1.
  destruct (_ || _).
  - by destruct verbose.
  - pose proof (runs_for_each rename_one rename_step ms runs_rename_one) as H.
    unfold bind. rewrite (runs_when verbose _ st), H.
    by rewrite (runs_when verbose).
Qed.

Lemma runs_build verbose : runs (build verbose) (built_state verbose).
Proof.
  intros st. unfold build, built_state, assembled_state, renamed_state.
  unfold bind at 1. unfold get_config at 1.
  unfold bind at 1. unfold modify_material at 1.
  unfold bind at 1. rewrite runs_when.
  unfold bind at 1. rewrite runs_rename_texture_files.
  unfold bind at 1. unfold make_material.
  rewrite (runs_for_each add_one add_step _ runs_add_one).
  unfold bind at 1. unfold get_config at 1.
  unfold bind at 1. unfold get_material at 1.
  unfold bind at 1. unfold write_file at 1.
  by rewrite runs_when.
Qed.

(** ** Option handling *)

Lemma with_config_id st : with_config (st_config st) st = st.
Proof. by destruct st. Qed.

Lemma handle_option_run verbose o st :
  handle_option verbose o st =
  if PyStr.eqb o.1 "-h" then (Exit 0, print_state help_text st)
  else (Ret (verbose || PyStr.eqb o.1 "-v"),
        with_config (apply_option o (st_config st)) st).
Proof.
  destruct o as [opt arg]. unfold handle_option, apply_option. cbn [fst].
  destruct (PyStr.eqb opt "-h") eqn:Hh; [done|].
  destruct (PyStr.eqb opt "-v") eqn:Hv.
  { apply eqb_true in Hv as ->. rewrite orb_true_r. cbn.
    by rewrite with_config_id. }
  rewrite orb_false_r.
  clear Hh Hv.
  repeat (destruct (PyStr.eqb opt _); [reflexivity|]).
  cbn. by rewrite with_config_id.
Qed.

Lemma has_option_elem name opts : has_option name opts = true ↔ name ∈ opts.*1.
Proof.
  induction opts as [|o opts IH]; cbn.
  - split; [done|]. by intros ?%elem_of_nil.
  - rewrite orb_true_iff, IH, elem_of_cons, eqb_true.
    split; intros [?|?]; auto.
Qed.

(** Without [-h], the options fold into the configuration. *)
Lemma handle_options_run opts verbose st :
  has_option "-h" opts = false →
  handle_options opts verbose st =
  (Ret (verbose || has_option "-v" opts),
   with_config (foldl (λ c o, apply_option o c) (st_config st) opts) st).
Proof.
  revert verbose st. induction opts as [|o opts IH]; intros verbose st Hh.
  - cbn. by rewrite orb_false_r, with_config_id.
  - cbn in Hh. apply orb_false_elim in Hh as [Ho Hh].
    cbn [handle_options]. unfold bind. rewrite handle_option_run, Ho.
    rewrite IH by done. cbn. by rewrite orb_assoc.
Qed.

(** With [-h], the usage text is printed and the process exits with 0; the
    options before [-h] have only touched the configuration. *)
Lemma handle_options_help opts verbose st :
  has_option "-h" opts = true →
  ∃ config, handle_options opts verbose st =
            (Exit 0, print_state help_text (with_config config st)).
Proof.
  revert verbose st. induction opts as [|o opts IH]; intros verbose st Hh.
  - done.
  - cbn [handle_options]. unfold bind. rewrite handle_option_run.
    destruct (PyStr.eqb o.1 "-h") eqn:Ho.
    + exists (st_config st). by rewrite with_config_id.
    + cbn in Hh. rewrite Ho in Hh. cbn in Hh.
      destruct (IH (verbose || PyStr.eqb o.1 "-v")
                   (with_config (apply_option o (st_config st)) st) Hh)
        as [config ->].
      by exists config.
Qed.

(** ** The paths through [main] *)

Lemma run_getopt_error cwd fs argv msg :
  getopt argv shortopts longopts = Raise msg →
  run cwd fs argv = (Exit 1, print_state error_text (initial_state cwd fs)).
Proof. intros H. unfold run, main. by rewrite H. Qed.

Lemma run_no_options cwd fs argv args :
  getopt argv shortopts longopts = Ok ([], args) →
  run cwd fs argv = (Exit 0, print_state help_text (initial_state cwd fs)).
Proof. intros H. unfold run, main. by rewrite H. Qed.

Lemma run_options cwd fs argv opts args :
  getopt argv shortopts longopts = Ok (opts, args) → opts ≠ [] →
  run cwd fs argv =
  match handle_options opts false (initial_state cwd fs) with
  | (Exit code, st) => (Exit code, st)
  | (Ret verbose, st) =>
      if PyStr.eqb (input_file_name (st_config st)) ""
      then (Exit 1, print_state error_text st)
      else build verbose st
  end.
Proof.
  intros H Hne. unfold run, main. rewrite H.
  destruct opts as [|o opts]; [done|].
  unfold bind at 1. cbn [length Nat.eqb ret].
  unfold bind at 1.
  destruct (handle_options _ _ _) as [[verbose|code] st]; [|done].
  unfold bind at 1. unfold get_config at 1.
  unfold bind at 1.
  by destruct (PyStr.eqb _ _).
Qed.

Lemma reaches_build_run cwd fs argv verbose st :
  reaches_build cwd fs argv verbose st →
  run cwd fs argv = (Ret tt, built_state verbose st).
Proof.
  intros (opts & args & Hget & Hne & Hopts & Hin).
  rewrite (run_options _ _ _ _ _ Hget Hne), Hopts.
  apply eqb_false in Hin. rewrite Hin. apply runs_build.
Qed.

(** [build] starts with the files [main] was started with, and nothing
    printed yet. *)
Lemma reaches_build_state cwd fs argv verbose st :
  reaches_build cwd fs argv verbose st →
  st_files st = fs ∧ st_stdout st = [] ∧ st_material st = [].
Proof.
  intros (opts & args & _ & _ & Hopts & _).
  destruct (has_option "-h" opts) eqn:Hh.
  - destruct (handle_options_help opts false (initial_state cwd fs) Hh)
      as [config H]. congruence.
  - rewrite handle_options_run in Hopts by done. by injection Hopts as _ <-.
Qed.

(** ** [getopt] has fuel enough *)

Lemma do_shorts_length opts optstring so args opts' args' :
  do_shorts opts optstring so args = Ok (opts', args') →
  (length args' ≤ length args)%nat.
Proof.
  revert opts. induction optstring as [|opt optstring IH]; intros opts H.
  - cbn in H. by injection H as _ <-.
  - cbn [do_shorts] in H.
    destruct (short_has_arg opt so) as [msg|[|]]; [done| |by eapply IH].
    destruct (PyStr.eqb optstring "").
    + destruct args as [|optarg args]; [done|].
      injection H as _ <-. cbn. lia.
    + by injection H as _ <-.
Qed.

Lemma do_longs_length opts opt lo args opts' args' :
  do_longs opts opt lo args = Ok (opts', args') →
  (length args' ≤ length args)%nat.
Proof.
  unfold do_longs.
  destruct (match PyStr.index "=" opt with None => _ | Some i => _ end)
    as [opt1 optarg].
  destruct (long_has_args opt1 lo) as [msg|[[|] opt2]]; [done| |].
  - destruct optarg as [optarg|].
    + intros H. by injection H as _ <-.
    + destruct args as [|a args]; [done|]. intros H. injection H as _ <-.
      cbn. lia.
  - destruct optarg; [done|]. intros H. by injection H as _ <-.
Qed.

(** Any fuel at least the number of arguments gives the result of the loop:
    [getopt] never stops for lack of fuel. *)
Lemma getopt_while_fuel n n' opts args so lo :
  (length args ≤ n)%nat → (length args ≤ n')%nat →
  getopt_while n opts args so lo = getopt_while n' opts args so lo.
Proof.
  revert n' opts args. induction n as [|n IH]; intros n' opts args Hn Hn'.
  - destruct args; [|cbn in Hn; lia]. by destruct n'.
  - destruct args as [|arg0 rest]; [by destruct n'|].
    destruct n' as [|n']; [cbn in Hn'; lia|].
    cbn [getopt_while]. cbn in Hn, Hn'.
    destruct (_ && _); [|done].
    destruct (PyStr.eqb arg0 "--"); [done|].
    destruct (PyStr.startswith arg0 "--").
    + destruct (do_longs _ _ _ _) as [msg|[opts' args']] eqn:H; [done|].
      apply do_longs_length in H. apply IH; lia.
    + destruct (do_shorts _ _ _ _) as [msg|[opts' args']] eqn:H; [done|].
      apply do_shorts_length in H. apply IH; lia.
Qed.

(** [getopt] computes the loop to its end. *)
Lemma getopt_fuel n args :
  (length args ≤ n)%nat →
  getopt args shortopts longopts = getopt_while n [] args shortopts longopts.
Proof. intros H. unfold getopt. by apply getopt_while_fuel. Qed.

(** ** Help and usage errors *)

(** C8. When [-h] is among the parsed options, or no option was given, the
    program prints the usage text and exits with status 0 without doing
    anything else: the files are those it started with, nothing else was
    printed and no material was assembled. *)
Theorem help_exits_without_action cwd fs argv opts args :
  getopt argv shortopts longopts = Ok (opts, args) →
  opts = [] ∨ "-h" ∈ opts.*1 →
  ∃ st, run cwd fs argv = (Exit 0, st) ∧
        exit_code (run cwd fs argv).1 = 0 ∧
        st_files st = fs ∧
        st_stdout st = [help_text] ∧
        st_material st = [].
Proof.
  intros Hget [->|Hh].
  - rewrite (run_no_options _ _ _ _ Hget). by eexists.
  - assert (opts ≠ []) as Hne by (by intros ->; apply elem_of_nil in Hh).
    rewrite (run_options _ _ _ _ _ Hget Hne).
    apply has_option_elem in Hh.
    destruct (handle_options_help opts false (initial_state cwd fs) Hh)
      as [config ->].
    by eexists.
Qed.

Lemma help_exits_without_action_witness :
  let fs : gmap string string := {["/w/base_albedo.tiff" := "tiff"]} in
  let argv := ["--dif"; "-o"; "out"; "-h"; "-f"; "base"] in
  "-h" ∈ [("--dif", ""); ("-o", "out"); ("-h", ""); ("-f", "base")].*1 ∧
  ∃ st, run "/w" fs argv = (Exit 0, st) ∧
        exit_code (run "/w" fs argv).1 = 0 ∧
        st_files st = fs ∧
        st_stdout st = [help_text] ∧
        st_material st = [].
Proof.
  intros fs argv.
  assert ("-h" ∈ [("--dif", ""); ("-o", "out"); ("-h", ""); ("-f", "base")].*1)
    as Hh by compute_done.
  split; [exact Hh|].
  apply (help_exits_without_action "/w" fs argv
           [("--dif", ""); ("-o", "out"); ("-h", ""); ("-f", "base")] []).
  - reflexivity.
  - right. exact Hh.
Defined.

(** C7, as worded, fails on [--dif -h]: the vector parses, has the option
    [--dif] and no input base name, yet [-h] makes the program print the
    usage text and exit with status 0. *)
Lemma usage_error_counterexample :
  ¬ usage_error_claim "/w" ∅ ["--dif"; "-h"].
Proof.
  intros H. destruct H as (st & Hrun & _).
  - right. exists [("--dif", ""); ("-h", "")], [].
    split; [reflexivity|]. split; [reflexivity|].
    exists ("--dif", ""). split; [compute_done|done].
  - vm_compute in Hrun. discriminate.
Qed.

(** C7, amended. If the argument vector is malformed, or it parses into at
    least one option, none of them [-h], and leaves the input base name
    empty, the program prints the error message and exits with status 1;
    no file was renamed or created. *)
Theorem usage_error_exits_1 cwd fs argv :
  (∃ msg, getopt argv shortopts longopts = Raise msg) ∨
  (∃ opts args,
     getopt argv shortopts longopts = Ok (opts, args) ∧
     opts ≠ [] ∧ ("-h" ∉ opts.*1) ∧
     input_file_name
       (st_config (handle_options opts false (initial_state cwd fs)).2) = "") →
  ∃ st, run cwd fs argv = (Exit 1, st) ∧
        exit_code (run cwd fs argv).1 = 1 ∧
        st_files st = fs ∧
        st_stdout st = [error_text] ∧
        st_material st = [].
Proof.
  intros [[msg Hget]|(opts & args & Hget & Hne & Hh & Hin)].
  - rewrite (run_getopt_error _ _ _ _ Hget). by eexists.
  - rewrite (run_options _ _ _ _ _ Hget Hne).
    assert (has_option "-h" opts = false) as Hh'.
    { destruct (has_option "-h" opts) eqn:E; [|done].
      by apply has_option_elem in E. }
    rewrite handle_options_run in Hin |- * by done.
    cbn [snd st_config with_config] in Hin.
    cbn [st_config with_config]. rewrite Hin. cbn. by eexists.
Qed.

Lemma usage_error_exits_1_witness :
  let fs : gmap string string := {["/w/base_albedo.tiff" := "tiff"]} in
  ∃ st, run "/w" fs ["--dif"; "-v"] = (Exit 1, st) ∧
        exit_code (run "/w" fs ["--dif"; "-v"]).1 = 1 ∧
        st_files st = fs ∧
        st_stdout st = [error_text] ∧
        st_material st = [].
Proof.
  intros fs. apply (usage_error_exits_1 "/w" fs ["--dif"; "-v"]).
  right. exists [("--dif", ""); ("-v", "")], [].
  split; [reflexivity|]. split; [done|]. split; [|reflexivity].
  compute_done.
Defined.

(** ** Category flags *)

(** C5. From the default configuration, [--default] enables exactly dif,
    ddn, occ, met and rou and leaves emi, cav and dis disabled; [--all]
    gives the configuration that the eight category flags together give. *)
Theorem default_and_all_flags cwd :
  configure cwd ["--default"] =
    Some {| export_occ := true; export_cav := false; export_dif := true;
            export_dis := false; export_emi := false; export_met := true;
            export_ddn := true; export_rou := true;
            input_file_name := ""; output_file_name := "";
            textures_dir_path := cwd; assets_root_path := "Assets" |} ∧
  (∀ config, configure cwd ["--default"] = Some config →
     ∀ k, exports config k = true ↔ k ∈ [Dif; Ddn; Occ; Met; Rou]) ∧
  configure cwd ["--all"] =
    configure cwd ["--occ"; "--cav"; "--dif"; "--dis"; "--emi"; "--met";
                   "--ddn"; "--rou"] ∧
  (∀ config, configure cwd ["--all"] = Some config →
     ∀ k, exports config k = true) ∧
  setup_all (default_config cwd) =
    set_export_rou true (set_export_ddn true (set_export_met true
      (set_export_emi true (set_export_dis true (set_export_dif true
        (set_export_cav true (set_export_occ true (default_config cwd)))))))).
Proof.
  split; [reflexivity|]. split.
  { intros config [= <-] k. rewrite <- (bool_decide_eq_true (k ∈ _)).
    by destruct k. }
  split; [reflexivity|]. split; [|reflexivity].
  intros config [= <-] k. by destruct k.
Qed.











(** ** Dictionaries *)



Lemma dict_set_keys {V : Type} k (v : V) k' d :
  k' ∈ dict_keys (dict_set k v d) → k' = k ∨ k' ∈ dict_keys d.
Proof.
  unfold dict_keys. induction d as [|[k1 v1] d IH]; cbn.
  - intros ?%list_elem_of_singleton. by left.
  - destruct (PyStr.eqb k1 k) eqn:E; cbn; intros [->|H]%elem_of_cons.
    + right. by left.
    + right. by right.
    + right. by left.
    + destruct (IH H) as [->|?]; [by left|]. right. by right.
Qed.

(** ** The two loops of [build] *)

Lemma maps_keys_NoDup config : NoDup (entry_key <$> maps config).
Proof. compute_done. Qed.

Lemma maps_suffixes_NoDup config : NoDup (entry_suffix <$> maps config).
Proof. compute_done. Qed.

Lemma maps_suffixes_known config :
  Forall (λ e, entry_suffix e ∈ suffixes) (maps config).
Proof. repeat constructor; compute_done. Qed.

Lemma rename_step_frame e st :
  st_config (rename_step e st) = st_config st ∧
  st_material (rename_step e st) = st_material st.
Proof.
  destruct e as [[[name m] key] [|]]; [|done]. unfold rename_step.
  by destruct (st_files st !! _).
Qed.

Lemma rename_loop_frame ms st :
  st_config (foldl (λ s e, rename_step e s) st ms) = st_config st ∧
  st_material (foldl (λ s e, rename_step e s) st ms) = st_material st.
Proof.
  revert st. induction ms as [|e ms IH]; intros st; [done|].
  cbn [foldl]. destruct (IH (rename_step e st)) as [-> ->].
  apply rename_step_frame.
Qed.

Lemma rename_step_stdout e st line :
  line ∈ st_stdout st → line ∈ st_stdout (rename_step e st).
Proof.
  destruct e as [[[name m] key] [|]]; [|done]. unfold rename_step.
  destruct (st_files st !! _); [done|]. cbn. intros H.
  apply elem_of_app. by left.
Qed.

Lemma rename_loop_stdout ms st line :
  line ∈ st_stdout st → line ∈ st_stdout (foldl (λ s e, rename_step e s) st ms).
Proof.
  revert st. induction ms as [|e ms IH]; intros st H; [done|].
  cbn [foldl]. by apply IH, rename_step_stdout.
Qed.

(** A path that is neither source nor destination of an entry is left
    alone by the renaming loop. *)
Lemma rename_loop_other ms st p :
  Forall (λ e, p ≠ src_of (st_config st) (entry_suffix e) ∧
               p ≠ dst_of (st_config st) (entry_suffix e)) ms →
  st_files (foldl (λ s e, rename_step e s) st ms) !! p = st_files st !! p.
Proof.
  revert st. induction ms as [|e ms IH]; intros st H; [done|].
  apply Forall_cons in H as [[Hsrc Hdst] H].
  cbn [foldl]. rewrite IH.
  - destruct e as [[[name m] key] [|]]; [|done].
    unfold rename_step. unfold src_of, dst_of, entry_suffix in Hsrc, Hdst.
    cbn in Hsrc, Hdst.
    destruct (st_files st !! _) as [data|]; [|done].
    cbn. by rewrite lookup_insert_ne, lookup_delete_ne.
  - by rewrite (proj1 (rename_step_frame e st)).
Qed.

(** Paths of entries with other suffixes. *)
Lemma other_entries_apart config ms m :
  m ∈ suffixes → m ∉ entry_suffix <$> ms →
  Forall (λ e, entry_suffix e ∈ suffixes) ms →
  ∀ x, Forall (λ e,
         make_file_map_name config x m ≠ src_of config (entry_suffix e) ∧
         make_file_map_name config x m ≠ dst_of config (entry_suffix e)) ms.
Proof.
  intros Hm Hnin Hknown x. induction Hknown as [|e ms He _ IH]; [done|].
  apply not_elem_of_cons in Hnin as [Hne Hnin].
  constructor; [|by apply IH].
  split; by apply make_file_map_name_disjoint.
Qed.

(** An enabled entry whose source exists is moved; one whose source is
    missing is reported, with the output base in the message. *)
Lemma rename_loop_entry ms st name m key :
  NoDup (entry_suffix <$> ms) →
  Forall (λ e, entry_suffix e ∈ suffixes) ms →
  (name, m, key, true) ∈ ms →
  let config := st_config st in
  let final := foldl (λ s e, rename_step e s) st ms in
  match st_files st !! src_of config m with
  | Some data =>
      src_of config m ≠ dst_of config m →
      st_files final !! src_of config m = None ∧
      st_files final !! dst_of config m = Some data
  | None => not_renamed_msg name (output_file_name config) m ∈ st_stdout final
  end.
Proof.
  intros Hnodup Hknown Hin config. revert st config Hnodup Hknown Hin.
  induction ms as [|e ms IH]; intros st config Hnodup Hknown Hin final;
    [by apply elem_of_nil in Hin|].
  apply NoDup_cons in Hnodup as [Hfresh Hnodup].
  apply Forall_cons in Hknown as [He Hknown].
  apply elem_of_cons in Hin as [<-|Hin].
  - (* the entry is handled now; the rest of the loop leaves its files *)
    subst final. cbn [foldl]. change (entry_suffix (name, m, key, true)) with m in Hfresh, He.
    pose proof (other_entries_apart config ms m He Hfresh Hknown) as Hapart.
    assert (st_config (rename_step (name, m, key, true) st) = config) as Hcfg
      by apply rename_step_frame.
    destruct (st_files st !! src_of config m) as [data|] eqn:Hsrc.
    + intros Hne.
      rewrite !rename_loop_other by (rewrite Hcfg; apply Hapart).
      unfold rename_step. fold config. fold (src_of config m).
      fold (dst_of config m). rewrite Hsrc. cbn.
      by rewrite lookup_insert_ne, lookup_delete_eq, lookup_insert_eq.
    + apply rename_loop_stdout. unfold rename_step. fold config.
      fold (src_of config m). rewrite Hsrc. cbn.
      apply elem_of_app. right. by apply list_elem_of_singleton.
  - (* an earlier entry has another suffix and other files *)
    assert (m ∈ suffixes) as Hm.
    { rewrite Forall_forall in Hknown. apply (Hknown _ Hin). }
    assert (m ≠ entry_suffix e) as Hne.
    { intros ->. apply Hfresh. apply list_elem_of_fmap.
      by exists (name, entry_suffix e, key, true). }
    assert (st_config (rename_step e st) = config) as Hcfg
      by apply rename_step_frame.
    assert (st_files (rename_step e st) !! src_of config m =
            st_files st !! src_of config m) as Hsame.
    { apply (rename_loop_other [e] st). constructor; [|done].
      split; by apply make_file_map_name_disjoint. }
    specialize (IH (rename_step e st) Hnodup Hknown Hin).
    cbn zeta in IH. rewrite Hcfg, Hsame in IH. exact IH.
Qed.

Lemma add_step_frame e st :
  st_config (add_step e st) = st_config st ∧
  st_files (add_step e st) = st_files st.
Proof.
  destruct e as [[[name m] key] [|]]; [|done]. unfold add_step.
  by destruct (st_files st !! _).
Qed.

Lemma add_loop_frame ms st :
  st_config (foldl (λ s e, add_step e s) st ms) = st_config st ∧
  st_files (foldl (λ s e, add_step e s) st ms) = st_files st.
Proof.
  revert st. induction ms as [|e ms IH]; intros st; [done|].
  cbn [foldl]. destruct (IH (add_step e st)) as [-> ->].
  apply add_step_frame.
Qed.







(** ** The renaming step as a whole *)

Lemma when_print_frame b line st :
  st_config (when_print b line st) = st_config st ∧
  st_material (when_print b line st) = st_material st ∧
  st_files (when_print b line st) = st_files st.
Proof. by destruct b. Qed.

Lemma when_print_stdout b line st l :
  l ∈ st_stdout st → l ∈ st_stdout (when_print b line st).
Proof. destruct b; [|done]. cbn. intros H. apply elem_of_app. by left. Qed.

Lemma renamed_state_eq verbose st :
  rename_texture_files verbose (maps (st_config st))
    (build_entry_state verbose st) = (Ret tt, renamed_state verbose st).
Proof. by rewrite runs_rename_texture_files. Qed.

(** Without a distinct output base nothing is renamed and the output base
    becomes the input base. *)
Lemma renamed_state_skip verbose st :
  output_file_name (st_config st) = "" ∨
  output_file_name (st_config st) = input_file_name (st_config st) →
  st_config (renamed_state verbose st) =
    set_output_file_name (input_file_name (st_config st)) (st_config st) ∧
  st_files (renamed_state verbose st) = st_files st ∧
  st_material (renamed_state verbose st) = [].
Proof.
  intros H.
  assert (PyStr.eqb (output_file_name (st_config st)) "" ||
          PyStr.eqb (output_file_name (st_config st))
                    (input_file_name (st_config st)) = true) as Hcond.
  { apply orb_true_iff. by rewrite !eqb_true. }
  unfold renamed_state, rename_state. cbv zeta.
  destruct verbose;
    cbn [when_print print_state st_config st_material st_files];
    by rewrite Hcond.
Qed.

(** With a distinct output base the configuration is kept and the loop
    runs over the files [build] was given. *)
Lemma renamed_state_loop verbose st :
  output_file_name (st_config st) ≠ "" →
  output_file_name (st_config st) ≠ input_file_name (st_config st) →
  ∃ st0,
    st_config st0 = st_config st ∧ st_files st0 = st_files st ∧
    (∀ l, l ∈ st_stdout st → l ∈ st_stdout st0) ∧
    st_config (renamed_state verbose st) = st_config st ∧
    st_material (renamed_state verbose st) = [] ∧
    st_files (renamed_state verbose st) =
      st_files (foldl (λ s e, rename_step e s) st0 (maps (st_config st))) ∧
    (∀ l, l ∈ st_stdout (foldl (λ s e, rename_step e s) st0
                               (maps (st_config st))) →
          l ∈ st_stdout (renamed_state verbose st)).
Proof.
  intros H1 H2.
  assert (PyStr.eqb (output_file_name (st_config st)) "" ||
          PyStr.eqb (output_file_name (st_config st))
                    (input_file_name (st_config st)) = false) as Hcond.
  { apply orb_false_iff. by rewrite !eqb_false. }
  unfold renamed_state, rename_state. cbv zeta.
  set (st1 := when_print verbose "[V] Building material file..."
                (mkState (st_config st) [] (st_files st) (st_stdout st))).
  assert (st_config st1 = st_config st ∧ st_material st1 = [] ∧
          st_files st1 = st_files st) as (Hc & Hm & Hf)
    by (subst st1; by destruct verbose).
  rewrite Hc, Hcond.
  set (st0 := when_print verbose "    [V] Renaming texture files..." st1).
  destruct (when_print_frame verbose "    [V] Renaming texture files..." st1)
    as (Hc0 & Hm0 & Hf0).
  fold st0 in Hc0, Hm0, Hf0.
  exists st0.
  set (st2 := foldl (λ s e, rename_step e s) st0 (maps (st_config st))).
  destruct (when_print_frame verbose "    [V] Texture files renamed." st2)
    as (Hc2 & Hm2 & Hf2).
  destruct (rename_loop_frame (maps (st_config st)) st0) as [Hc3 Hm3].
  fold st2 in Hc3, Hm3.
  repeat split.
  - by rewrite Hc0, Hc.
  - by rewrite Hf0, Hf.
  - intros l Hl. subst st0 st1. by do 2 apply when_print_stdout.
  - by rewrite Hc2, Hc3, Hc0, Hc.
  - by rewrite Hm2, Hm3, Hm0, Hm.
  - by rewrite Hf2.
  - intros l Hl. by apply when_print_stdout.
Qed.

(** C2. When [main] reaches [build], the output base name in the state in
    which the material is assembled is not empty; and if the output base
    given was empty or equal to the input base, [rename_texture_files] has
    left every file as it was and has set the output base to the input
    base. *)
Theorem output_name_never_empty cwd fs argv verbose st :
  reaches_build cwd fs argv verbose st →
  rename_texture_files verbose (maps (st_config st))
    (build_entry_state verbose st) = (Ret tt, renamed_state verbose st) ∧
  output_file_name (st_config (renamed_state verbose st)) ≠ "" ∧
  output_file_name (st_config (assembled_state verbose st)) ≠ "" ∧
  (output_file_name (st_config st) = "" ∨
   output_file_name (st_config st) = input_file_name (st_config st) →
     output_file_name (st_config (renamed_state verbose st)) =
       input_file_name (st_config st) ∧
     st_files (renamed_state verbose st) = fs) ∧
  run cwd fs argv = (Ret tt, built_state verbose st).
Proof.
  intros Hreach.
  pose proof (reaches_build_run _ _ _ _ _ Hreach) as Hrun.
  destruct (reaches_build_state _ _ _ _ _ Hreach) as (Hfs & _ & _).
  destruct Hreach as (opts & args & _ & _ & _ & Hin).
  assert (output_file_name (st_config (renamed_state verbose st)) ≠ "") as Hne.
  { destruct (decide (output_file_name (st_config st) = "")) as [He|He].
    - destruct (renamed_state_skip verbose st (or_introl He)) as (-> & _).
      done.
    - destruct (decide (output_file_name (st_config st) =
                        input_file_name (st_config st))) as [Hi|Hi].
      + destruct (renamed_state_skip verbose st (or_intror Hi)) as (-> & _).
        done.
      + destruct (renamed_state_loop verbose st He Hi)
          as (st0 & _ & _ & _ & -> & _). done. }
  split; [apply renamed_state_eq|]. split; [done|]. split.
  { unfold assembled_state. by rewrite (proj1 (add_loop_frame _ _)). }
  split; [|done].
  intros H. destruct (renamed_state_skip verbose st H) as (-> & -> & _).
  by rewrite Hfs.
Qed.

Lemma output_name_never_empty_witness :
  let fs : gmap string string := {["/w/base_albedo.tiff" := "tiff"]} in
  let argv := ["-f"; "base"; "--dif"] in
  let st := with_config
              (set_export_dif true
                 (set_input_file_name "base" (default_config "/w")))
              (initial_state "/w" fs) in
  reaches_build "/w" fs argv false st ∧
  output_file_name (st_config (renamed_state false st)) ≠ "" ∧
  output_file_name (st_config (renamed_state false st)) = "base" ∧
  st_files (renamed_state false st) = fs ∧
  run "/w" fs argv = (Ret tt, built_state false st).
Proof.
  intros fs argv st.
  assert (reaches_build "/w" fs argv false st) as Hreach.
  { exists [("-f", "base"); ("--dif", "")], []. by repeat split. }
  destruct (output_name_never_empty "/w" fs argv false st Hreach)
    as (_ & Hne & _ & Hskip & Hrun).
  destruct (Hskip (or_introl eq_refl)) as [Hout Hfiles].
  by repeat split.
Defined.

(** ** Assembling and writing the material *)

Lemma renamed_state_material verbose st :
  st_material (renamed_state verbose st) = [].
Proof.
  destruct (decide (output_file_name (st_config st) = "")) as [He|He].
  { by destruct (renamed_state_skip verbose st (or_introl He)) as (_ & _ & ->). }
  destruct (decide (output_file_name (st_config st) =
                    input_file_name (st_config st))) as [Hi|Hi].
  { by destruct (renamed_state_skip verbose st (or_intror Hi)) as (_ & _ & ->). }
  by destruct (renamed_state_loop verbose st He Hi) as (? & _ & _ & _ & _ & -> & _).
Qed.

Lemma built_state_facts verbose st :
  let a := assembled_state verbose st in
  let final := built_state verbose st in
  st_config final = st_config a ∧
  st_material final = st_material a ∧
  st_files final =
    <[material_path (st_config a) := dumps (material_json (st_material a))]>
      (st_files a) ∧
  (∀ l, l ∈ st_stdout a → l ∈ st_stdout final).
Proof.
  unfold built_state. cbv zeta.
  destruct verbose;
    cbn [when_print print_state set_files st_config st_material st_files
         st_stdout];
    repeat split; auto.
  intros l Hl. apply elem_of_app. by left.
Qed.

Lemma assembled_state_frame verbose st :
  st_config (assembled_state verbose st) = st_config (renamed_state verbose st) ∧
  st_files (assembled_state verbose st) = st_files (renamed_state verbose st).
Proof. apply add_loop_frame. Qed.



(** ** Renaming with a distinct output base *)

(** The material file is never one of the texture files. *)
Lemma material_path_not_texture config config' x m :
  material_path config ≠ make_file_map_name config' x m.
Proof.
  unfold material_path, make_file_map_name, make_map_name. intros Heq.
  destruct (os_path_join_suffix (textures_dir_path config)
              (output_file_name config +:+ ".material")) as [p Hp].
  destruct (os_path_join_suffix (textures_dir_path config')
              (x +:+ "_" +:+ m +:+ ".tiff")) as [q Hq].
  rewrite Hp, Hq in Heq. apply (f_equal chars) in Heq.
  rewrite !chars_app in Heq.
  assert (chars ".material" `suffix_of`
          chars p ++ chars (output_file_name config) ++ chars ".material") as H1.
  { exists (chars p ++ chars (output_file_name config)).
    by rewrite <- app_assoc. }
  assert (chars ".tiff" `suffix_of`
          chars p ++ chars (output_file_name config) ++ chars ".material") as H2.
  { rewrite Heq. exists (chars q ++ chars x ++ chars "_" ++ chars m).
    by rewrite <- !app_assoc. }
  destruct (suffix_weak_total _ _ _ H1 H2) as [H|H];
    apply (bool_decide_pack _) in H; by vm_compute in H.
Qed.





(** Base names that are not absolute paths give different files as soon as
    they differ. *)
Lemma make_map_name_relative x m :
  PyStr.startswith x "/" = false →
  PyStr.startswith (make_map_name x m) "/" = false.
Proof.
  unfold make_map_name, PyStr.startswith. destruct x as [|c x]; [done|].
  change (String c x +:+ "_" +:+ m +:+ ".tiff")
    with (String c (x +:+ "_" +:+ m +:+ ".tiff")).
  cbn [String.prefix]. destruct (ascii_dec "/" c); [|done].
  destruct x; [done|]. by destruct x.
Qed.

Lemma relative_bases_apart config m :
  PyStr.startswith (input_file_name config) "/" = false →
  PyStr.startswith (output_file_name config) "/" = false →
  output_file_name config ≠ input_file_name config →
  src_of config m ≠ dst_of config m.
Proof.
  intros Hin Hout Hne Heq. unfold src_of, dst_of, make_file_map_name in Heq.
  apply os_path_join_inj in Heq; [|by apply make_map_name_relative..].
  by apply make_map_name_inj in Heq.
Qed.

(** ** The message of the renaming step *)




(** ** The worked example *)

Lemma replace_no_backslash s : "\"%char ∉ chars (PyStr.replace "\" "/" s).
Proof.
  induction s as [|c s IH]; [by intros ?%elem_of_nil|].
  cbn. intros [H|H]%elem_of_cons; [|done].
  destruct (Ascii.eqb c "\") eqn:E; [done|].
  apply Ascii.eqb_neq in E. by subst c.
Qed.

(** The reference written for a category has no backslash, whatever the
    assets root and the output base are. *)
Lemma asset_reference_forward config m :
  "\"%char ∉ chars (asset_reference config m).
Proof. apply replace_no_backslash. Qed.




(** ** The verbose flag *)

Lemma quiet_app out out' : quiet (out ++ out') = quiet out ++ quiet out'.
Proof. apply List.filter_app. Qed.

Lemma same_but_log_refl st : same_but_log st st.
Proof. by repeat split. Qed.

Lemma same_print line st st' :
  same_but_log st st' →
  same_but_log (print_state line st) (print_state line st').
Proof.
  intros (Hc & Hm & Hf & Ho). repeat split; cbn; try done.
  by rewrite !quiet_app, Ho.
Qed.

Lemma same_when_print b b' line st st' :
  is_verbose_line line = true →
  same_but_log st st' →
  same_but_log (when_print b line st) (when_print b' line st').
Proof.
  intros Hv (Hc & Hm & Hf & Ho).
  assert (quiet [line] = []) as Hq by (cbn; by rewrite Hv).
  destruct b, b'; repeat split; cbn; try done;
    by rewrite ?quiet_app, ?Hq, ?app_nil_r.
Qed.

Lemma same_rename_step e st st' :
  same_but_log st st' →
  same_but_log (rename_step e st) (rename_step e st').
Proof.
  intros H. pose proof H as (Hc & Hm & Hf & Ho).
  destruct e as [[[name m] key] [|]]; [|done].
  unfold rename_step. rewrite <- Hc, <- Hf.
  destruct (st_files st !! _).
  - repeat split; cbn; first [done|congruence].
  - by apply same_print.
Qed.

Lemma same_add_step e st st' :
  same_but_log st st' →
  same_but_log (add_step e st) (add_step e st').
Proof.
  intros H. pose proof H as (Hc & Hm & Hf & Ho).
  destruct e as [[[name m] key] [|]]; [|done].
  unfold add_step. rewrite <- Hc, <- Hf.
  destruct (st_files st !! _).
  - repeat split; cbn; first [done|congruence].
  - by apply same_print.
Qed.

Lemma same_foldl (step : map_entry → state → state) ms st st' :
  (∀ e s s', same_but_log s s' → same_but_log (step e s) (step e s')) →
  same_but_log st st' →
  same_but_log (foldl (λ s e, step e s) st ms) (foldl (λ s e, step e s) st' ms).
Proof.
  intros Hstep. revert st st'. induction ms as [|e ms IH]; intros st st' H.
  - done.
  - cbn [foldl]. by apply IH, Hstep.
Qed.

Lemma same_rename_state v v' ms st st' :
  same_but_log st st' →
  same_but_log (rename_state v ms st) (rename_state v' ms st').
Proof.
  intros H. pose proof H as (Hc & _). unfold rename_state. cbv zeta.
  rewrite <- Hc. destruct (_ || _).
  - pose proof (same_when_print v v' "    [V] Skipping texture files renaming."
                  st st' eq_refl H) as (Hc' & Hm' & Hf' & Ho').
    repeat split; cbn [st_config st_material st_files st_stdout]; congruence.
  - apply same_when_print; [done|].
    apply same_foldl; [apply same_rename_step|].
    by apply same_when_print.
Qed.

(** [build] does the same with and without [verbose], log lines apart. *)
Lemma same_built_state v v' st :
  same_but_log (built_state v st) (built_state v' st).
Proof.
  assert (same_but_log (assembled_state v st) (assembled_state v' st)) as H.
  { unfold assembled_state, renamed_state. cbv zeta.
    apply same_foldl; [apply same_add_step|].
    apply same_rename_state. apply same_when_print; [done|].
    apply same_but_log_refl. }
  unfold built_state. cbv zeta. apply same_when_print; [done|].
  destruct H as (Hc & Hm & Hf & Ho).
  repeat split; cbn [set_files st_config st_material st_files st_stdout];
    congruence.
Qed.

(** [-v] changes neither the state the option loop ends in nor whether it
    ends the process. *)
Lemma handle_options_drop_v opts verbose verbose' st :
  exit_status (handle_options opts verbose st).1 =
    exit_status (handle_options (drop_v opts) verbose' st).1 ∧
  (handle_options opts verbose st).2 =
    (handle_options (drop_v opts) verbose' st).2.
Proof.
  revert verbose verbose' st.
  induction opts as [|o opts IH]; intros verbose verbose' st; [done|].
  cbn [drop_v List.filter]. fold (drop_v opts).
  destruct (PyStr.eqb o.1 "-v") eqn:Hv; cbn [negb].
  - cbn [handle_options]. unfold bind. rewrite handle_option_run.
    destruct o as [opt arg]. cbn [fst] in Hv |- *.
    apply eqb_true in Hv as ->. cbn [PyStr.eqb String.eqb Ascii.eqb].
    change (with_config (apply_option ("-v", arg) (st_config st)) st)
      with (with_config (st_config st) st).
    rewrite with_config_id. apply IH.
  - cbn [handle_options]. unfold bind. rewrite !handle_option_run.
    destruct (PyStr.eqb o.1 "-h"); [done|]. apply IH.
Qed.

(** C9, as worded, fails on the empty argument vector: without options the
    program prints the usage text and exits with 0, with [-v] alone it
    reports invalid arguments and exits with 1. *)
Lemma verbose_counterexample : ¬ verbose_claim "/w" ∅ [] ["-v"].
Proof.
  intros H. destruct (H [] [] [("-v", "")] []) as (Hexit & _); try done.
Qed.

(** C9, amended. Two argument vectors whose parsed options differ only by
    occurrences of [-v], and that have at least one other option, give the
    same exit status and leave the same files (the same renames, the same
    material file with the same content); their outputs differ only by the
    verbose log lines. *)
Theorem verbose_only_changes_log cwd fs argv1 argv2 opts1 args1 opts2 args2 :
  getopt argv1 shortopts longopts = Ok (opts1, args1) →
  getopt argv2 shortopts longopts = Ok (opts2, args2) →
  drop_v opts1 = drop_v opts2 →
  drop_v opts1 ≠ [] →
  exit_code (run cwd fs argv1).1 = exit_code (run cwd fs argv2).1 ∧
  st_files (run cwd fs argv1).2 = st_files (run cwd fs argv2).2 ∧
  st_material (run cwd fs argv1).2 = st_material (run cwd fs argv2).2 ∧
  quiet (st_stdout (run cwd fs argv1).2) =
    quiet (st_stdout (run cwd fs argv2).2).
Proof.
  intros Hget1 Hget2 Heq Hne.
  assert (opts1 ≠ []) as Hne1 by (by intros ->).
  assert (opts2 ≠ []) as Hne2 by (intros ->; by rewrite Heq in Hne).
  rewrite (run_options _ _ _ _ _ Hget1 Hne1), (run_options _ _ _ _ _ Hget2 Hne2).
  destruct (handle_options_drop_v opts1 false false (initial_state cwd fs))
    as [Hx1 Hs1].
  destruct (handle_options_drop_v opts2 false false (initial_state cwd fs))
    as [Hx2 Hs2].
  rewrite <- Heq in Hx2, Hs2. rewrite <- Hx1 in Hx2. rewrite <- Hs1 in Hs2.
  destruct (handle_options opts1 false _) as [[v1|c1] s1],
           (handle_options opts2 false _) as [[v2|c2] s2];
    cbn in Hx2, Hs2; subst; try done.
  - destruct (PyStr.eqb _ _); [done|].
    rewrite !runs_build. cbn [fst snd exit_code].
    destruct (same_built_state v1 v2 s1) as (_ & Hm & Hf & Ho). by symmetry in Hf.
  - by injection Hx2 as ->.
Qed.

Lemma verbose_only_changes_log_witness :
  let fs : gmap string string := {["/w/base_albedo.tiff" := "tiff"]} in
  let argv1 := ["-f"; "base"; "-o"; "wall"; "--dif"] in
  let argv2 := ["-v"; "-f"; "base"; "-o"; "wall"; "--dif"] in
  exit_code (run "/w" fs argv1).1 = exit_code (run "/w" fs argv2).1 ∧
  st_files (run "/w" fs argv1).2 = st_files (run "/w" fs argv2).2 ∧
  st_material (run "/w" fs argv1).2 = st_material (run "/w" fs argv2).2 ∧
  quiet (st_stdout (run "/w" fs argv1).2) =
    quiet (st_stdout (run "/w" fs argv2).2).
Proof.
  intros fs argv1 argv2.
  apply (verbose_only_changes_log "/w" fs argv1 argv2
           [("-f", "base"); ("-o", "wall"); ("--dif", "")] []
           [("-v", ""); ("-f", "base"); ("-o", "wall"); ("--dif", "")] []);
    [reflexivity|reflexivity|reflexivity|done].
Defined.

(** * Further properties of the script *)

(** ** What [getopt] returns *)

Lemma short_has_arg_script opt b :
  short_has_arg opt shortopts = Ok b →
  (opt, b) ∈ [("h", false); ("v", false); ("f", true); ("o", true);
              ("d", true); ("a", true)]%char.
Proof.
  unfold shortopts. cbn [short_has_arg].
  repeat match goal with
         | |- context [Ascii.eqb opt ?c] =>
             destruct (Ascii.eqb_spec opt c) as [->|?]
         end;
    cbn; intros [=]; subst; compute_done.
Qed.

Lemma short_option_well_formed opt optarg :
  short_has_arg opt shortopts = Ok true ∨
  (short_has_arg opt shortopts = Ok false ∧ optarg = "") →
  well_formed_option ("-" +:+ String opt "", optarg).
Proof.
  intros [H|[H ->]]; apply short_has_arg_script in H;
    repeat (apply elem_of_cons in H as [[= ->]|H]);
    try (by apply elem_of_nil in H);
    (split; [compute_done|]); intros Hn; try done;
    exfalso; apply Hn; compute_done.
Qed.

Lemma mem_elem x l : PyStr.mem x l = true ↔ x ∈ l.
Proof.
  unfold PyStr.mem. induction l as [|y l IH]; cbn.
  - split; [done|]. by intros ?%elem_of_nil.
  - rewrite orb_true_iff, IH, elem_of_cons, eqb_true. done.
Qed.

Lemma filter_elem {A : Type} (f : A → bool) (x : A) l :
  x ∈ List.filter f l ↔ x ∈ l ∧ f x = true.
Proof. rewrite !list_elem_of_In. apply List.filter_In. Qed.

(** No long option of the script takes an argument. *)
Lemma longopts_plain n :
  n ∈ longopts →
  ("="%char ∉ chars n) ∧ PyStr.endswith n "=" = false ∧
  PyStr.index "=" n = None.
Proof.
  unfold longopts. intros H.
  repeat (apply elem_of_cons in H as [->|H]);
    [..|by apply elem_of_nil in H]; (split; [compute_done|done]).
Qed.

Lemma long_has_args_script opt b n :
  long_has_args opt longopts = Ok (b, n) →
  b = false ∧ n ∈ longopts ∧ PyStr.startswith n opt = true.
Proof.
  unfold long_has_args.
  assert (∀ x, x ∈ List.filter (λ o, PyStr.startswith o opt) longopts →
               x ∈ longopts ∧ PyStr.startswith x opt = true) as Hsub
    by (by intros x ?%filter_elem).
  destruct (List.filter _ longopts) as [|u others]; [done|].
  destruct (PyStr.mem opt (u :: others)) eqn:Hexact.
  { intros [= <- <-]. apply mem_elem in Hexact. split; [done|]. by apply Hsub. }
  destruct (PyStr.mem (opt +:+ "=") (u :: others)) eqn:Harg.
  { apply mem_elem, Hsub in Harg as [Harg _].
    apply longopts_plain in Harg as (Harg & _). exfalso. apply Harg.
    rewrite chars_app. apply elem_of_app. right. by left. }
  destruct others; [|done].
  destruct (Hsub u) as [Hu Hpre]; [by left|].
  destruct (longopts_plain u Hu) as (_ & -> & _).
  by intros [= <- <-].
Qed.

Lemma long_option_known n :
  n ∈ longopts → well_formed_option ("--" +:+ n, "").
Proof.
  unfold longopts. intros H.
  repeat (apply elem_of_cons in H as [->|H]);
    [..|by apply elem_of_nil in H]; (split; [compute_done|done]).
Qed.

Lemma do_shorts_well_formed opts optstring args opts' args' :
  do_shorts opts optstring shortopts args = Ok (opts', args') →
  Forall well_formed_option opts →
  Forall well_formed_option opts' ∧ args' `suffix_of` args.
Proof.
  revert opts. induction optstring as [|opt optstring IH]; intros opts H Hwf.
  - cbn in H. by injection H as <- <-.
  - cbn [do_shorts] in H.
    destruct (short_has_arg opt shortopts) as [msg|[|]] eqn:Hopt; [done| |].
    + assert (∀ optarg, well_formed_option ("-" +:+ String opt "", optarg))
        as Hnew by (intros ?; apply short_option_well_formed; by left).
      destruct (PyStr.eqb optstring "").
      * destruct args as [|optarg args]; [done|]. injection H as <- <-.
        split; [|by apply suffix_cons_r].
        apply Forall_app. split; [done|]. by constructor.
      * injection H as <- <-. split; [|done].
        apply Forall_app. split; [done|]. by constructor.
    + apply IH in H; [done|]. apply Forall_app. split; [done|].
      constructor; [|done]. apply short_option_well_formed. by right.
Qed.

Lemma do_longs_well_formed opts opt args opts' args' :
  do_longs opts opt longopts args = Ok (opts', args') →
  Forall well_formed_option opts →
  Forall well_formed_option opts' ∧ args' `suffix_of` args.
Proof.
  unfold do_longs. intros H Hwf.
  destruct (match PyStr.index "=" opt with None => _ | Some i => _ end)
    as [opt1 optarg].
  destruct (long_has_args opt1 longopts) as [msg|[b n]] eqn:Hlong; [done|].
  apply long_has_args_script in Hlong as (-> & Hn & _).
  destruct optarg; [done|]. injection H as <- <-. split; [|done].
  apply Forall_app. split; [done|]. constructor; [|done].
  by apply long_option_known.
Qed.

Lemma getopt_while_well_formed fuel opts args opts' args' :
  getopt_while fuel opts args shortopts longopts = Ok (opts', args') →
  Forall well_formed_option opts →
  Forall well_formed_option opts' ∧ args' `suffix_of` args.
Proof.
  revert opts args. induction fuel as [|fuel IH]; intros opts args H Hwf.
  - cbn in H. by injection H as <- <-.
  - destruct args as [|arg0 rest]; [cbn in H; by injection H as <- <-|].
    cbn [getopt_while] in H.
    destruct (_ && _); [|by injection H as <- <-].
    destruct (PyStr.eqb arg0 "--").
    { injection H as <- <-. split; [done|]. by apply suffix_cons_r. }
    destruct (PyStr.startswith arg0 "--").
    + destruct (do_longs _ _ _ _) as [msg|[opts1 args1]] eqn:Hstep; [done|].
      apply do_longs_well_formed in Hstep as [Hwf1 Hsuf]; [|done].
      destruct (IH _ _ H Hwf1) as [Hwf' Hsuf']. split; [done|].
      apply suffix_cons_r. by etrans.
    + destruct (do_shorts _ _ _ _) as [msg|[opts1 args1]] eqn:Hstep; [done|].
      apply do_shorts_well_formed in Hstep as [Hwf1 Hsuf]; [|done].
      destruct (IH _ _ H Hwf1) as [Hwf' Hsuf']. split; [done|].
      apply suffix_cons_r. by etrans.
Qed.

(** X1. Whatever the command line, every option [getopt] returns to [main]
    is one of the sixteen that the option loop has a branch for, its
    argument is empty unless it is [-f], [-o], [-d] or [-a], and the
    arguments left over are a trailing part of the command line. *)
Theorem parsed_options_are_known argv opts args :
  getopt argv shortopts longopts = Ok (opts, args) →
  Forall well_formed_option opts ∧ args `suffix_of` argv.
Proof. intros H. by apply getopt_while_well_formed in H. Qed.

Lemma parsed_options_are_known_witness :
  getopt ["-vfwall"; "--def"; "tex"; "-h"] shortopts longopts =
    Ok ([("-v", ""); ("-f", "wall"); ("--default", "")], ["tex"; "-h"]) ∧
  Forall well_formed_option [("-v", ""); ("-f", "wall"); ("--default", "")] ∧
  ["tex"; "-h"] `suffix_of` ["-vfwall"; "--def"; "tex"; "-h"].
Proof.
  split; [reflexivity|].
  by apply (parsed_options_are_known ["-vfwall"; "--def"; "tex"; "-h"]).
Defined.

(** ** Equivalent command lines *)

(** One turn of the loop of [getopt] on a short-option argument. *)
Lemma getopt_while_short fuel opts c s rest so lo :
  c ≠ "-"%char →
  getopt_while (S fuel) opts (String "-" (String c s) :: rest) so lo =
  match do_shorts opts (String c s) so rest with
  | Raise m => Raise m
  | Ok (opts, args) => getopt_while fuel opts args so lo
  end.
Proof.
  intros Hc. cbn [getopt_while].
  assert (PyStr.startswith (String "-" (String c s)) "-" = true) as -> by done.
  assert (PyStr.eqb (String "-" (String c s)) "-" = false) as -> by done.
  assert (PyStr.eqb (String "-" (String c s)) "--" = false) as ->.
  { apply eqb_false. by intros [= ->]. }
  assert (PyStr.startswith (String "-" (String c s)) "--" = false) as ->.
  { unfold PyStr.startswith. cbn [String.prefix].
    destruct (ascii_dec "-" "-"); [|done]. by destruct (ascii_dec "-" c). }
  done.
Qed.

Lemma getopt_attached opt name rest :
  opt ∈ ["f"; "o"; "d"; "a"]%char → name ≠ "" →
  getopt (("-" +:+ String opt name) :: rest) shortopts longopts =
  getopt (("-" +:+ String opt "") :: name :: rest) shortopts longopts.
Proof.
  intros Hopt Hname. apply eqb_false in Hname. unfold getopt.
  change ("-" +:+ String opt name) with (String "-" (String opt name)).
  change ("-" +:+ String opt "") with (String "-" (String opt "")).
  cbn [length].
  repeat (apply elem_of_cons in Hopt as [->|Hopt]);
    [..|by apply elem_of_nil in Hopt];
    rewrite !getopt_while_short by done;
    cbn -[getopt_while String.append]; rewrite Hname;
    apply getopt_while_fuel; lia.
Qed.

(** X2. An option argument may be attached to its option or follow it:
    [-fbase] and [-f base] (and likewise for [-o], [-d], [-a]) give the
    same run. *)
Theorem attached_argument cwd fs opt name rest :
  opt ∈ ["f"; "o"; "d"; "a"]%char → name ≠ "" →
  run cwd fs (("-" +:+ String opt name) :: rest) =
  run cwd fs (("-" +:+ String opt "") :: name :: rest).
Proof.
  intros Hopt Hname. unfold run, main. by rewrite getopt_attached.
Qed.

Lemma attached_argument_witness :
  run "/w" ∅ ["-fbase"; "--dif"] = run "/w" ∅ ["-f"; "base"; "--dif"].
Proof.
  apply (attached_argument "/w" ∅ "f" "base" ["--dif"]); [compute_done|done].
Defined.

Lemma do_shorts_app opts optstring so args opts' args' more :
  do_shorts opts optstring so args = Ok (opts', args') →
  do_shorts opts optstring so (args ++ more) = Ok (opts', args' ++ more).
Proof.
  revert opts. induction optstring as [|opt optstring IH]; intros opts H.
  - cbn in H |- *. by injection H as <- <-.
  - cbn [do_shorts] in H |- *.
    destruct (short_has_arg opt so) as [msg|[|]]; [done| |by apply IH].
    destruct (PyStr.eqb optstring "").
    + destruct args as [|optarg args]; [done|]. by injection H as <- <-.
    + by injection H as <- <-.
Qed.

Lemma do_longs_app opts opt lo args opts' args' more :
  do_longs opts opt lo args = Ok (opts', args') →
  do_longs opts opt lo (args ++ more) = Ok (opts', args' ++ more).
Proof.
  unfold do_longs.
  destruct (match PyStr.index "=" opt with None => _ | Some i => _ end)
    as [opt1 optarg].
  destruct (long_has_args opt1 lo) as [msg|[[|] opt2]]; [done| |].
  - destruct optarg as [optarg|].
    + intros H. by injection H as <- <-.
    + destruct args as [|a args]; [done|]. intros H. by injection H as <- <-.
  - destruct optarg; [done|]. intros H. by injection H as <- <-.
Qed.

(** What follows the point where [getopt] stops does not change the
    options it returns. *)
Lemma getopt_while_app n n' opts argv opts' args' more so lo :
  getopt_while n opts argv so lo = Ok (opts', args') →
  (length argv ≤ n)%nat → (length (argv ++ more) ≤ n')%nat →
  args' ≠ [] ∨ more = [] ∨ (∃ a rest, more = a :: rest ∧ stops_options a = true) →
  ∃ args'', getopt_while n' opts (argv ++ more) so lo = Ok (opts', args'').
Proof.
  revert n' opts argv.
  induction n as [|n IH]; intros n' opts argv H Hn Hn' Hstop.
  - destruct argv; [|cbn in Hn; lia]. cbn in H. injection H as <- <-.
    destruct Hstop as [?|[->|(a & rest & -> & Hstop)]]; [done| |].
    + exists []. by destruct n'.
    + destruct n' as [|n']; [cbn in Hn'; lia|]. cbn [app getopt_while].
      unfold stops_options in Hstop.
      destruct (_ && _); [|by eexists].
      cbn in Hstop. rewrite Hstop. by eexists.
  - destruct argv as [|arg0 tl].
    + cbn in H. injection H as <- <-.
      destruct Hstop as [?|[->|(a & rest & -> & Hstop)]]; [done| |].
      * exists []. by destruct n'.
      * destruct n' as [|n']; [cbn in Hn'; lia|]. cbn [app getopt_while].
        unfold stops_options in Hstop.
        destruct (_ && _); [|by eexists].
        cbn in Hstop. rewrite Hstop. by eexists.
    + destruct n' as [|n']; [cbn in Hn'; lia|].
      cbn [getopt_while] in H. cbn [app getopt_while]. cbn in Hn, Hn'.
      destruct (_ && _); [|injection H as <- <-; by eexists].
      destruct (PyStr.eqb arg0 "--"); [injection H as <- <-; by eexists|].
      destruct (PyStr.startswith arg0 "--").
      * destruct (do_longs _ _ _ tl) as [msg|[opts1 args1]] eqn:Hstep; [done|].
        pose proof (do_longs_length _ _ _ _ _ _ Hstep) as Hlen.
        rewrite (do_longs_app _ _ _ _ _ _ more Hstep).
        apply (IH _ _ _ H); [lia| |done].
        rewrite length_app in Hn' |- *. lia.
      * destruct (do_shorts _ _ _ tl) as [msg|[opts1 args1]] eqn:Hstep; [done|].
        pose proof (do_shorts_length _ _ _ _ _ _ Hstep) as Hlen.
        rewrite (do_shorts_app _ _ _ _ _ _ more Hstep).
        apply (IH _ _ _ H); [lia| |done].
        rewrite length_app in Hn' |- *. lia.
Qed.

(** X3. Once the options are over, whatever else is on the command line is
    ignored: if the command line ends its options with an argument that is
    not an option (or with [--]), or is followed by such an argument, the
    run is the same as without the rest. *)
Theorem trailing_arguments_ignored cwd fs argv opts args a rest :
  getopt argv shortopts longopts = Ok (opts, args) →
  args ≠ [] ∨ stops_options a = true →
  run cwd fs (argv ++ a :: rest) = run cwd fs argv.
Proof.
  intros Hget Hstop. unfold run, main. rewrite Hget.
  destruct (getopt_while_app (length argv) (length (argv ++ a :: rest))
              [] argv opts args (a :: rest) shortopts longopts Hget)
    as [args' Hget']; [done|done| |].
  { destruct Hstop as [?|?]; [by left|]. right. right. by exists a, rest. }
  unfold getopt. by rewrite Hget'.
Qed.

Lemma trailing_arguments_ignored_witness :
  run "/w" ∅ (["-f"; "base"; "--dif"] ++ ["notes.txt"; "-h"; "--bogus"]) =
  run "/w" ∅ ["-f"; "base"; "--dif"].
Proof.
  apply (trailing_arguments_ignored "/w" ∅ ["-f"; "base"; "--dif"]
           [("-f", "base"); ("--dif", "")] [] "notes.txt" ["-h"; "--bogus"]).
  - reflexivity.
  - right. reflexivity.
Defined.

Lemma prefix_app_ex p n : String.prefix p n = true → ∃ q, n = p +:+ q.
Proof.
  revert n. induction p as [|c p IH]; intros n H; [by exists n|].
  destruct n as [|d n]; [done|]. cbn [String.prefix] in H.
  destruct (ascii_dec c d) as [->|]; [|done].
  destruct (IH n H) as [q ->]. by exists q.
Qed.

Lemma prefix_refl n : String.prefix n n = true.
Proof.
  induction n as [|c n IH]; [done|]. cbn [String.prefix].
  by destruct (ascii_dec c c).
Qed.

Lemma index_None c s : c ∉ chars s → PyStr.index c s = None.
Proof.
  induction s as [|d s IH]; [done|]. cbn. intros H.
  apply not_elem_of_cons in H as [Hne H].
  destruct (Ascii.eqb_spec d c) as [->|_]; [done|]. by rewrite IH.
Qed.

(** One turn of the loop of [getopt] on a long-option argument. *)
Lemma getopt_while_long fuel opts p rest so lo :
  p ≠ "" →
  getopt_while (S fuel) opts (("--" +:+ p) :: rest) so lo =
  match do_longs opts p lo rest with
  | Raise m => Raise m
  | Ok (opts, args) => getopt_while fuel opts args so lo
  end.
Proof.
  intros Hp. destruct p as [|c p]; [done|].
  change ("--" +:+ String c p) with (String "-" (String "-" (String c p))).
  cbn [getopt_while].
  assert (PyStr.startswith (String "-" (String "-" (String c p))) "-" = true)
    as -> by done.
  assert (PyStr.eqb (String "-" (String "-" (String c p))) "-" = false)
    as -> by done.
  assert (PyStr.eqb (String "-" (String "-" (String c p))) "--" = false)
    as -> by done.
  assert (PyStr.startswith (String "-" (String "-" (String c p))) "--" = true)
    as -> by done.
  done.
Qed.

(** A name of [longopts] is taken as itself. *)
Lemma do_longs_exact opts n args :
  n ∈ longopts →
  do_longs opts n longopts args = Ok (opts ++ [("--" +:+ n, "")], args).
Proof.
  intros Hn. unfold do_longs.
  destruct (longopts_plain n Hn) as (_ & _ & ->).
  unfold long_has_args.
  assert (n ∈ List.filter (λ o, PyStr.startswith o n) longopts) as Hin.
  { apply filter_elem. split; [done|apply prefix_refl]. }
  destruct (List.filter _ longopts) as [|u others];
    [by apply elem_of_nil in Hin|].
  apply mem_elem in Hin. by rewrite Hin.
Qed.

(** An abbreviation that only one name of [longopts] starts with is taken
    as that name. *)
Lemma do_longs_abbreviation opts p n args :
  List.filter (λ o, PyStr.startswith o p) longopts = [n] →
  do_longs opts p longopts args = Ok (opts ++ [("--" +:+ n, "")], args).
Proof.
  intros Hone.
  assert (n ∈ longopts ∧ PyStr.startswith n p = true) as [Hn Hpre].
  { apply (filter_elem (λ o, PyStr.startswith o p)). rewrite Hone. by left. }
  destruct (longopts_plain n Hn) as (Hplain & Hends & _).
  destruct (prefix_app_ex p n Hpre) as [q Hq].
  assert ("="%char ∉ chars p) as Hp.
  { intros H. apply Hplain. rewrite Hq, chars_app. apply elem_of_app. by left. }
  unfold do_longs. rewrite (index_None _ _ Hp).
  unfold long_has_args. rewrite Hone.
  destruct (PyStr.mem p [n]) eqn:Hexact.
  { apply mem_elem, list_elem_of_singleton in Hexact as ->. done. }
  destruct (PyStr.mem (p +:+ "=") [n]) eqn:Harg.
  { apply mem_elem, list_elem_of_singleton in Harg. exfalso. apply Hplain.
    rewrite <- Harg, chars_app. apply elem_of_app. right. by left. }
  by rewrite Hends.
Qed.

(** X4. A long flag may be abbreviated: if [p] is the beginning of exactly
    one of the ten long option names, [--p] gives the same run as the full
    flag. *)
Theorem abbreviated_flag cwd fs p n rest :
  List.filter (λ o, PyStr.startswith o p) longopts = [n] →
  run cwd fs (("--" +:+ p) :: rest) = run cwd fs (("--" +:+ n) :: rest).
Proof.
  intros Hone.
  assert (n ∈ longopts) as Hn.
  { apply (filter_elem (λ o, PyStr.startswith o p)). rewrite Hone. by left. }
  assert (p ≠ "") as Hp by (by intros ->).
  assert (n ≠ "") as Hn' by (intros ->; revert Hn; compute_done).
  unfold run, main, getopt. cbn [length].
  rewrite !getopt_while_long by done.
  by rewrite (do_longs_abbreviation _ _ _ _ Hone), (do_longs_exact _ _ _ Hn).
Qed.

Lemma abbreviated_flag_witness :
  run "/w" ∅ ["--def"; "-f"; "base"] = run "/w" ∅ ["--default"; "-f"; "base"].
Proof.
  apply (abbreviated_flag "/w" ∅ "def" "default" ["-f"; "base"]). reflexivity.
Defined.

(** A long option with [=] or that does not begin exactly one name of
    [longopts] raises [GetoptError]. *)
Lemma do_longs_rejected opts p args :
  PyStr.index "=" p ≠ None ∨
  length (List.filter (λ o, PyStr.startswith o p) longopts) ≠ 1%nat →
  ∃ msg, do_longs opts p longopts args = Raise msg.
Proof.
  unfold do_longs. intros [Heq|Hlen].
  - destruct (PyStr.index "=" p) as [i|]; [|done].
    destruct (long_has_args _ longopts) as [msg|[b n]] eqn:Hlong;
      [by eexists|].
    apply long_has_args_script in Hlong as (-> & _). by eexists.
  - destruct (PyStr.index "=" p) as [i|] eqn:Heq.
    { destruct (long_has_args _ longopts) as [msg|[b n]] eqn:Hlong;
        [by eexists|].
      apply long_has_args_script in Hlong as (-> & _). by eexists. }
    unfold long_has_args.
    destruct (List.filter _ longopts) as [|u others] eqn:Hposs; [by eexists|].
    destruct (PyStr.mem p (u :: others)) eqn:Hexact.
    { (* an exact name begins no other name *)
      exfalso. apply mem_elem in Hexact. rewrite <- Hposs in Hexact.
      apply filter_elem in Hexact as [Hin _]. revert Hposs Hlen.
      unfold longopts in Hin.
      repeat (apply elem_of_cons in Hin as [->|Hin]);
        [..|by apply elem_of_nil in Hin];
        vm_compute; by intros [= <- <-]. }
    destruct (PyStr.mem (p +:+ "=") (u :: others)) eqn:Harg.
    { exfalso. apply mem_elem in Harg. rewrite <- Hposs in Harg.
      apply filter_elem in Harg as [Hin _].
      apply longopts_plain in Hin as (Hplain & _). apply Hplain.
      rewrite chars_app. apply elem_of_app. right. by left. }
    destruct others; [done|]. by eexists.
Qed.

(** X5. A long option that carries [=value], or whose name begins none or
    several of the long option names, is a usage error: the error message
    is printed, the exit status is 1 and no file is touched. *)
Theorem unknown_flag_rejected cwd fs p rest :
  p ≠ "" →
  PyStr.index "=" p ≠ None ∨
  length (List.filter (λ o, PyStr.startswith o p) longopts) ≠ 1%nat →
  run cwd fs (("--" +:+ p) :: rest) =
    (Exit 1, print_state error_text (initial_state cwd fs)).
Proof.
  intros Hp Hbad. unfold run, main, getopt. cbn [length].
  rewrite getopt_while_long by done.
  by destruct (do_longs_rejected [] p rest Hbad) as [msg ->].
Qed.

Lemma unknown_flag_rejected_witness :
  run "/w" ∅ ["--d"; "-f"; "base"] =
    (Exit 1, print_state error_text (initial_state "/w" ∅)) ∧
  run "/w" ∅ ["--dif=1"; "-f"; "base"] =
    (Exit 1, print_state error_text (initial_state "/w" ∅)).
Proof.
  split.
  - apply (unknown_flag_rejected "/w" ∅ "d" ["-f"; "base"]); [done|].
    right. by vm_compute.
  - apply (unknown_flag_rejected "/w" ∅ "dif=1" ["-f"; "base"]); [done|].
    left. by vm_compute.
Defined.

(** ** The option loop *)

Lemma apply_option_strings o config :
  input_file_name (apply_option o config) =
    (if PyStr.eqb o.1 "-f" then o.2 else input_file_name config) ∧
  output_file_name (apply_option o config) =
    (if PyStr.eqb o.1 "-o" then o.2 else output_file_name config) ∧
  textures_dir_path (apply_option o config) =
    (if PyStr.eqb o.1 "-d" then o.2 else textures_dir_path config) ∧
  assets_root_path (apply_option o config) =
    (if PyStr.eqb o.1 "-a" then o.2 else assets_root_path config).
Proof.
  destruct o as [opt arg]. unfold apply_option, PyStr.eqb. cbn [fst snd].
  repeat match goal with
         | |- context [String.eqb opt ?x] =>
             destruct (String.eqb_spec opt x) as [->|?]
         end; done.
Qed.

Lemma foldl_apply_option_strings opts config :
  let final := foldl (λ c o, apply_option o c) config opts in
  input_file_name final = last_arg "-f" (input_file_name config) opts ∧
  output_file_name final = last_arg "-o" (output_file_name config) opts ∧
  textures_dir_path final = last_arg "-d" (textures_dir_path config) opts ∧
  assets_root_path final = last_arg "-a" (assets_root_path config) opts.
Proof.
  revert config. induction opts as [|o opts IH]; intros config; [done|].
  cbn zeta in IH |- *. unfold last_arg. cbn [foldl].
  destruct (apply_option_strings o config) as (<- & <- & <- & <-).
  apply IH.
Qed.

(** X6. When the option loop runs to its end, each of the four string
    settings holds the argument of the last occurrence of its option, or
    its former value when the option was not given; [verbose] is set
    exactly when [-v] occurs. *)
Theorem last_occurrence_wins opts verbose st v st' :
  handle_options opts verbose st = (Ret v, st') →
  input_file_name (st_config st') =
    last_arg "-f" (input_file_name (st_config st)) opts ∧
  output_file_name (st_config st') =
    last_arg "-o" (output_file_name (st_config st)) opts ∧
  textures_dir_path (st_config st') =
    last_arg "-d" (textures_dir_path (st_config st)) opts ∧
  assets_root_path (st_config st') =
    last_arg "-a" (assets_root_path (st_config st)) opts ∧
  v = verbose || has_option "-v" opts.
Proof.
  intros H.
  destruct (has_option "-h" opts) eqn:Hh.
  { destruct (handle_options_help opts verbose st Hh) as [config H'].
    congruence. }
  rewrite handle_options_run in H by done. injection H as <- <-.
  cbn [st_config with_config].
  destruct (foldl_apply_option_strings opts (st_config st)) as (? & ? & ? & ?).
  done.
Qed.

Lemma last_occurrence_wins_witness :
  let opts := [("-f", "a"); ("-d", "tex"); ("-f", "b"); ("-v", "")] in
  let r := handle_options opts false (initial_state "/w" ∅) in
  r.1 = Ret true ∧
  input_file_name (st_config r.2) = "b" ∧
  output_file_name (st_config r.2) = "" ∧
  textures_dir_path (st_config r.2) = "tex" ∧
  assets_root_path (st_config r.2) = "Assets".
Proof.
  intros opts r.
  destruct (last_occurrence_wins opts false (initial_state "/w" ∅) true r.2)
    as (Hf & Ho & Hd & Ha & _); [reflexivity|].
  split; [reflexivity|]. by rewrite Hf, Ho, Hd, Ha.
Defined.

(** ** The outcomes of a run *)


(** ** The content of the material *)

Lemma dict_set_fresh {V : Type} k (v : V) d :
  k ∉ dict_keys d → dict_set k v d = d ++ [(k, v)].
Proof.
  unfold dict_keys. induction d as [|[k' v'] d IH]; [done|].
  cbn. intros [Hne Hnin]%not_elem_of_cons.
  assert (PyStr.eqb k' k = false) as -> by (apply eqb_false; congruence).
  by rewrite IH.
Qed.

Lemma add_loop_listing ms st :
  NoDup (entry_key <$> ms) →
  (∀ k, k ∈ dict_keys (st_material st) → k ∉ entry_key <$> ms) →
  st_material (foldl (λ s e, add_step e s) st ms) =
  st_material st ++ omap (listed_entry (st_config st) (st_files st)) ms.
Proof.
  revert st. induction ms as [|e ms IH]; intros st Hnodup Hfresh.
  { cbn. by rewrite app_nil_r. }
  apply NoDup_cons in Hnodup as [Hkey Hnodup].
  destruct (add_step_frame e st) as [Hc Hf].
  cbn [foldl omap list_omap]. rewrite IH; [|done|].
  - rewrite Hc, Hf. destruct e as [[[name m] key] [|]]; [|done].
    unfold add_step, listed_entry, dst_of. cbn [andb].
    destruct (st_files st !! _) as [data|] eqn:Hdst.
    + rewrite bool_decide_eq_true_2 by eauto. cbn [st_material].
      rewrite dict_set_fresh; [by rewrite <- app_assoc|].
      intros Hin. apply (Hfresh _ Hin). by left.
    + rewrite bool_decide_eq_false_2; [done|]. by intros [? ?].
  - intros k Hk Hin.
    destruct e as [[[name m] key] [|]].
    + unfold add_step in Hk.
      destruct (st_files st !! _); cbn [st_material print_state] in Hk.
      * apply dict_set_keys in Hk as [->|Hk]; [done|].
        apply (Hfresh _ Hk). by right.
      * apply (Hfresh _ Hk). by right.
    + apply (Hfresh _ Hk). by right.
Qed.

(** The listing only looks at texture files. *)
Lemma listing_insert_material config config' fs data :
  listing config (<[material_path config' := data]> fs) = listing config fs.
Proof.
  unfold listing.
  assert (∀ e, listed_entry config (<[material_path config' := data]> fs) e =
               listed_entry config fs e) as Hsame.
  { intros [[[name m] key] enabled]. unfold listed_entry, dst_of.
    by rewrite lookup_insert_ne by apply material_path_not_texture. }
  induction (maps config) as [|e ms IH]; [done|].
  cbn [omap list_omap]. by rewrite Hsame, IH.
Qed.

Lemma renamed_state_flags verbose st :
  maps (st_config (renamed_state verbose st)) = maps (st_config st).
Proof.
  destruct (decide (output_file_name (st_config st) = "")) as [He|He].
  { by destruct (renamed_state_skip verbose st (or_introl He)) as (-> & _). }
  destruct (decide (output_file_name (st_config st) =
                    input_file_name (st_config st))) as [Hi|Hi].
  { by destruct (renamed_state_skip verbose st (or_intror Hi)) as (-> & _). }
  by destruct (renamed_state_loop verbose st He Hi) as (? & _ & _ & _ & -> & _).
Qed.

(** What [build] assembles, in terms of the state it leaves. *)
Lemma built_state_listing verbose st :
  let final := built_state verbose st in
  st_material final =
    listing (st_config (renamed_state verbose st))
            (st_files (renamed_state verbose st)) ∧
  st_material final = listing (st_config final) (st_files final) ∧
  st_files final !! material_path (st_config final) =
    Some (dumps (material_json (st_material final))).
Proof.
  cbv zeta.
  destruct (built_state_facts verbose st) as (Hc & Hm & Hf & _).
  destruct (assembled_state_frame verbose st) as [Hac Haf].
  assert (st_material (built_state verbose st) =
          listing (st_config (renamed_state verbose st))
                  (st_files (renamed_state verbose st))) as Hlist.
  { rewrite Hm. unfold assembled_state.
    rewrite add_loop_listing.
    - rewrite renamed_state_material. unfold listing.
      by rewrite renamed_state_flags.
    - apply maps_keys_NoDup.
    - intros k Hk. rewrite renamed_state_material in Hk.
      by apply elem_of_nil in Hk. }
  split; [done|]. split.
  - rewrite Hlist, Hf, Hc, Hac, Haf. by rewrite listing_insert_material.
  - by rewrite Hf, Hc, Hm, lookup_insert_eq.
Qed.

(** X8. When a run returns from [build], [propertyValues] holds, in the
    order of the map table, exactly one entry for each enabled category
    whose file [{output_base}_{suffix}.tiff] is in the textures directory,
    and nothing else; the material file holds the JSON text of that
    material. *)
Theorem material_lists_present_textures cwd fs argv verbose st :
  reaches_build cwd fs argv verbose st →
  ∃ final,
    run cwd fs argv = (Ret tt, final) ∧
    st_material final = listing (st_config final) (st_files final) ∧
    st_files final !! material_path (st_config final) =
      Some (dumps (material_json (listing (st_config final) (st_files final)))).
Proof.
  intros Hreach. exists (built_state verbose st).
  split; [by apply reaches_build_run|].
  destruct (built_state_listing verbose st) as (_ & Hlist & Hfile).
  split; [done|]. by rewrite <- Hlist.
Qed.

Lemma material_lists_present_textures_witness :
  let fs : gmap string string :=
    {["/w/base_normal.tiff" := "n"; "/w/base_ao.tiff" := "o";
      "/w/base_cavity.tiff" := "c"]} in
  ∃ final,
    run "/w" fs ["-f"; "base"; "--default"] = (Ret tt, final) ∧
    st_material final =
      [("occlusion.diffuseTextureMap", "Assets/base_ao.tiff");
       ("normal.textureMap", "Assets/base_normal.tiff")].
Proof.
  intros fs.
  destruct (material_lists_present_textures "/w" fs
              ["-f"; "base"; "--default"] false
              (with_config
                 (mkBuildConfig true false true false false true true true
                    "base" "" "/w" "Assets")
                 (initial_state "/w" fs)))
    as (final & Hrun & Hlist & _).
  { exists [("-f", "base"); ("--default", "")], []. by repeat split. }
  exists final. split; [exact Hrun|].
  rewrite Hlist.
  assert (final = (run "/w" fs ["-f"; "base"; "--default"]).2) as ->
    by (by rewrite Hrun).
  by vm_compute.
Defined.

(** ** The files a run touches *)

(** A path that is neither source nor destination of an enabled entry is
    left alone by the renaming loop. *)
Lemma rename_loop_untouched ms st p :
  (∀ name m key, (name, m, key, true) ∈ ms →
     p ≠ src_of (st_config st) m ∧ p ≠ dst_of (st_config st) m) →
  st_files (foldl (λ s e, rename_step e s) st ms) !! p = st_files st !! p.
Proof.
  revert st. induction ms as [|e ms IH]; intros st H; [done|].
  cbn [foldl]. rewrite IH.
  - destruct e as [[[name m] key] [|]]; [|done].
    destruct (H name m key) as [Hsrc Hdst]; [by left|].
    unfold rename_step. unfold src_of, dst_of in Hsrc, Hdst.
    destruct (st_files st !! _) as [data|]; [|done].
    cbn. by rewrite lookup_insert_ne, lookup_delete_ne.
  - rewrite (proj1 (rename_step_frame e st)).
    intros name m key Hin. apply (H name m key). by right.
Qed.

(** The files [build] leaves, apart from the material file, are those the
    renaming step leaves. *)
Lemma built_state_files verbose st p :
  p ≠ material_path (st_config (built_state verbose st)) →
  st_files (built_state verbose st) !! p =
  st_files (renamed_state verbose st) !! p.
Proof.
  destruct (built_state_facts verbose st) as (Hc & _ & Hf & _).
  destruct (assembled_state_frame verbose st) as [Hac Haf].
  rewrite Hc, Hf, Haf. intros Hp. by rewrite lookup_insert_ne.
Qed.

(** X9. A run that returns from [build] changes nothing but the material
    file and the source and destination files of the enabled categories:
    every other path, the files of disabled categories among them, holds
    what it held before. *)
Theorem other_files_untouched cwd fs argv verbose st p :
  reaches_build cwd fs argv verbose st →
  p ≠ material_path (st_config (run cwd fs argv).2) →
  (∀ name m key, (name, m, key, true) ∈ maps (st_config st) →
     p ≠ src_of (st_config st) m ∧ p ≠ dst_of (st_config st) m) →
  st_files (run cwd fs argv).2 !! p = fs !! p.
Proof.
  intros Hreach. rewrite (reaches_build_run _ _ _ _ _ Hreach). cbn [snd].
  destruct (reaches_build_state _ _ _ _ _ Hreach) as (Hfs & _ & _).
  intros Hmat Hother. rewrite built_state_files by done.
  destruct (decide (output_file_name (st_config st) = "")) as [He|He].
  { destruct (renamed_state_skip verbose st (or_introl He)) as (_ & -> & _).
    by rewrite Hfs. }
  destruct (decide (output_file_name (st_config st) =
                    input_file_name (st_config st))) as [Hi|Hi].
  { destruct (renamed_state_skip verbose st (or_intror Hi)) as (_ & -> & _).
    by rewrite Hfs. }
  destruct (renamed_state_loop verbose st He Hi)
    as (st0 & Hc0 & Hf0 & _ & _ & _ & -> & _).
  rewrite rename_loop_untouched; [by rewrite Hf0, Hfs|]. by rewrite Hc0.
Qed.

Lemma other_files_untouched_witness :
  let fs : gmap string string :=
    {["/w/base_albedo.tiff" := "a"; "/w/base_normal.tiff" := "n";
      "/w/readme.txt" := "r"]} in
  let argv := ["-f"; "base"; "-o"; "wall"; "--dif"] in
  st_files (run "/w" fs argv).2 !! "/w/base_normal.tiff" = Some "n" ∧
  st_files (run "/w" fs argv).2 !! "/w/readme.txt" = Some "r".
Proof.
  intros fs argv.
  pose (st := with_config
                (mkBuildConfig false false true false false false false false
                   "base" "wall" "/w" "Assets")
                (initial_state "/w" fs)).
  assert (reaches_build "/w" fs argv false st) as Hreach.
  { exists [("-f", "base"); ("-o", "wall"); ("--dif", "")], [].
    by repeat split. }
  assert (∀ p, p ≠ "/w/wall.material" → p ≠ "/w/base_albedo.tiff" →
               p ≠ "/w/wall_albedo.tiff" →
               st_files (run "/w" fs argv).2 !! p = fs !! p) as H.
  { intros p H1 H2 H3.
    apply (other_files_untouched "/w" fs argv false st p Hreach).
    - by vm_compute.
    - intros name m key Hin.
      cbv [maps st with_config st_config export_occ export_cav export_dif
           export_dis export_emi export_met export_ddn export_rou] in Hin.
      repeat (apply elem_of_cons in Hin as [Heq|Hin];
              [simplify_eq; by vm_compute|]).
      by apply elem_of_nil in Hin. }
  split.
  - by rewrite H.
  - by rewrite H.
Defined.

(** ** Running twice *)

(** Whether a run builds, and with which configuration, is decided by the
    command line alone. *)
Lemma run_shape cwd argv :
  (∃ code, ∀ fs,
     (run cwd fs argv).1 = Exit code ∧
     st_files (run cwd fs argv).2 = fs ∧
     st_material (run cwd fs argv).2 = []) ∨
  (∃ verbose config, ∀ fs,
     run cwd fs argv =
       (Ret tt, built_state verbose (mkState config [] fs []))).
Proof.
  destruct (getopt argv shortopts longopts) as [msg|[opts args]] eqn:Hget.
  { left. exists 1. intros fs. by rewrite (run_getopt_error _ _ _ _ Hget). }
  destruct (decide (opts = [])) as [->|Hne].
  { left. exists 0. intros fs. by rewrite (run_no_options _ _ _ _ Hget). }
  destruct (has_option "-h" opts) eqn:Hh.
  { left. exists 0. intros fs. rewrite (run_options _ _ _ _ _ Hget Hne).
    by destruct (handle_options_help opts false (initial_state cwd fs) Hh)
      as [config ->]. }
  set (config := foldl (λ c o, apply_option o c) (default_config cwd) opts).
  destruct (PyStr.eqb (input_file_name config) "") eqn:Hin.
  - left. exists 1. intros fs. rewrite (run_options _ _ _ _ _ Hget Hne).
    rewrite handle_options_run by done.
    cbn [st_config with_config initial_state]. fold config. by rewrite Hin.
  - right. exists (false || has_option "-v" opts), config. intros fs.
    rewrite (run_options _ _ _ _ _ Hget Hne).
    rewrite handle_options_run by done.
    cbn [st_config with_config initial_state]. fold config. rewrite Hin.
    by rewrite runs_build.
Qed.

(** The files [build] leaves: those of the renaming step, and the material
    file with the listing of what is there. *)
Lemma built_state_files_eq verbose st :
  let config := st_config (renamed_state verbose st) in
  let files := st_files (renamed_state verbose st) in
  st_config (built_state verbose st) = config ∧
  st_material (built_state verbose st) = listing config files ∧
  st_files (built_state verbose st) =
    <[material_path config := dumps (material_json (listing config files))]>
      files.
Proof.
  cbv zeta.
  destruct (built_state_facts verbose st) as (Hc & Hm & Hf & _).
  destruct (assembled_state_frame verbose st) as [Hac Haf].
  destruct (built_state_listing verbose st) as (Hlist & _).
  split; [by rewrite Hc|]. split; [done|].
  by rewrite Hf, Hac, Haf, <- Hm, Hlist.
Qed.

(** The renaming loop changes no file when, for each enabled entry, the
    source is missing or is the destination itself. *)
Lemma rename_loop_fixed ms st :
  (∀ name m key, (name, m, key, true) ∈ ms →
     st_files st !! src_of (st_config st) m = None ∨
     src_of (st_config st) m = dst_of (st_config st) m) →
  st_files (foldl (λ s e, rename_step e s) st ms) = st_files st.
Proof.
  revert st. induction ms as [|e ms IH]; intros st H; [done|].
  cbn [foldl].
  assert (st_files (rename_step e st) = st_files st) as Hstep.
  { destruct e as [[[name m] key] [|]]; [|done].
    unfold rename_step. fold (src_of (st_config st) m).
    fold (dst_of (st_config st) m).
    destruct (H name m key) as [Hnone|Hsame]; [by left|by rewrite Hnone|].
    destruct (st_files st !! src_of (st_config st) m) as [data|] eqn:Hsrc;
      [|done].
    cbn. rewrite <- Hsame, insert_delete_eq. by apply insert_id. }
  rewrite IH; [done|].
  rewrite (proj1 (rename_step_frame e st)), Hstep.
  intros name m key Hin. apply (H name m key). by right.
Qed.

(** After the renaming loop the source of an enabled entry is gone, unless
    it is the destination itself. *)
Lemma rename_loop_source_gone ms st name m key :
  NoDup (entry_suffix <$> ms) →
  Forall (λ e, entry_suffix e ∈ suffixes) ms →
  (name, m, key, true) ∈ ms →
  src_of (st_config st) m ≠ dst_of (st_config st) m →
  st_files (foldl (λ s e, rename_step e s) st ms) !! src_of (st_config st) m
  = None.
Proof.
  intros Hnodup Hknown Hin Hne.
  destruct (st_files st !! src_of (st_config st) m) as [data|] eqn:Hsrc.
  { pose proof (rename_loop_entry ms st name m key Hnodup Hknown Hin) as H.
    cbv zeta in H. rewrite Hsrc in H. by apply H. }
  clear Hne. revert st Hnodup Hknown Hin Hsrc.
  induction ms as [|e ms IH]; intros st Hnodup Hknown Hin Hsrc;
    [by apply elem_of_nil in Hin|].
  apply NoDup_cons in Hnodup as [Hfresh Hnodup].
  apply Forall_cons in Hknown as [He Hknown].
  assert (st_config (rename_step e st) = st_config st) as Hcfg
    by apply rename_step_frame.
  cbn [foldl]. apply elem_of_cons in Hin as [<-|Hin].
  - change (entry_suffix (name, m, key, true)) with m in Hfresh, He.
    rewrite rename_loop_other.
    + unfold rename_step. fold (src_of (st_config st) m). by rewrite Hsrc.
    + rewrite Hcfg. by apply other_entries_apart.
  - assert (m ∈ suffixes) as Hm.
    { rewrite Forall_forall in Hknown. apply (Hknown _ Hin). }
    assert (m ≠ entry_suffix e) as Hne.
    { intros ->. apply Hfresh. apply list_elem_of_fmap.
      by exists (name, entry_suffix e, key, true). }
    rewrite <- Hcfg. apply IH; [done..|]. rewrite Hcfg.
    rewrite (rename_loop_other [e] st); [done|]. constructor; [|done].
    split; by apply make_file_map_name_disjoint.
Qed.

(** [build] on the files it has left gives the same files and material. *)
Lemma built_state_twice verbose config fs :
  let first := built_state verbose (mkState config [] fs []) in
  let second := built_state verbose (mkState config [] (st_files first) []) in
  st_files second = st_files first ∧ st_material second = st_material first.
Proof.
  cbv zeta.
  set (st := mkState config [] fs []).
  set (st' := mkState config [] (st_files (built_state verbose st)) []).
  destruct (built_state_files_eq verbose st) as (_ & Hm & Hf).
  destruct (built_state_files_eq verbose st') as (_ & Hm' & Hf').
  cbv zeta in Hm, Hf, Hm', Hf'.
  assert (st_config (renamed_state verbose st') =
            st_config (renamed_state verbose st) ∧
          st_files (renamed_state verbose st') =
            st_files (built_state verbose st)) as [Hc Hr].
  { destruct (decide (output_file_name config = "")) as [He|He].
    { destruct (renamed_state_skip verbose st (or_introl He)) as (-> & _).
      by destruct (renamed_state_skip verbose st' (or_introl He))
        as (-> & -> & _). }
    destruct (decide (output_file_name config = input_file_name config))
      as [Hi|Hi].
    { destruct (renamed_state_skip verbose st (or_intror Hi)) as (-> & _).
      by destruct (renamed_state_skip verbose st' (or_intror Hi))
        as (-> & -> & _). }
    destruct (renamed_state_loop verbose st He Hi)
      as (st0 & Hc0 & Hf0 & _ & Hrc & _ & Hrf & _).
    destruct (renamed_state_loop verbose st' He Hi)
      as (st0' & Hc0' & Hf0' & _ & Hrc' & _ & Hrf' & _).
    cbn [st_config st_files st st'] in Hc0, Hf0, Hrc, Hrf, Hc0', Hf0', Hrc', Hrf'.
    cbn [st_config st st'].
    split; [by rewrite Hrc, Hrc'|].
    rewrite Hrf'. rewrite rename_loop_fixed; [done|].
    intros name m key Hin. rewrite Hc0', Hf0'.
    destruct (decide (src_of config m = dst_of config m)) as [?|Hne];
      [by right|left].
    rewrite Hf, Hrf, lookup_insert_ne
      by (unfold src_of; apply material_path_not_texture).
    pose proof (rename_loop_source_gone (maps config) st0 name m key
      (maps_suffixes_NoDup _) (maps_suffixes_known _) Hin) as Hgone.
    rewrite Hc0 in Hgone. by apply Hgone. }
  rewrite Hf', Hm', Hc, Hr, Hm, Hf.
  rewrite listing_insert_material, insert_insert_eq. split; reflexivity.
Qed.

(** X10. Running the program again with the same command line, on the
    files the first run has left, changes nothing more: the second run
    leaves the same files, assembles the same material and ends the same
    way. *)
Theorem second_run_changes_nothing cwd fs argv :
  let first := run cwd fs argv in
  let second := run cwd (st_files first.2) argv in
  st_files second.2 = st_files first.2 ∧
  st_material second.2 = st_material first.2 ∧
  second.1 = first.1.
Proof.
  cbv zeta.
  destruct (run_shape cwd argv) as [[code H]|(verbose & config & H)].
  - destruct (H fs) as (_ & H2 & _). by rewrite H2.
  - rewrite !H. cbn [fst snd].
    destruct (built_state_twice verbose config fs) as [Hf Hm]. done.
Qed.

(** ** The text of the material file *)









(** ** The asset references *)

Lemma replace_app old new a b :
  PyStr.replace old new (a +:+ b) =
  PyStr.replace old new a +:+ PyStr.replace old new b.
Proof.
  induction a as [|c a IH]; [done|].
  change (String c a +:+ b) with (String c (a +:+ b)).
  cbn [PyStr.replace]. by rewrite IH.
Qed.

Lemma replace_id old new s :
  old ∉ chars s → PyStr.replace old new s = s.
Proof.
  induction s as [|c s IH]; [done|]. cbn.
  intros [Hne H]%not_elem_of_cons.
  destruct (Ascii.eqb_spec c old) as [->|_]; [done|]. by rewrite IH.
Qed.

(** X12. For a category of the map table, an output base that is not an
    absolute path and a non-empty assets root without a final slash, the
    reference stored in the material is the assets root, a slash and the
    file name [{output_base}_{suffix}.tiff], with every backslash of the
    root and of the base turned into a slash; without backslashes it is
    literally [assets_root/{output_base}_{suffix}.tiff]. *)
Theorem asset_reference_form config m :
  m ∈ suffixes →
  assets_root_path config ≠ "" →
  PyStr.endswith (assets_root_path config) "/" = false →
  PyStr.startswith (output_file_name config) "/" = false →
  asset_reference config m =
    PyStr.replace "\" "/" (assets_root_path config) +:+ "/" +:+
    PyStr.replace "\" "/" (output_file_name config) +:+ "_" +:+ m +:+ ".tiff" ∧
  (("\"%char ∉ chars (assets_root_path config)) →
   ("\"%char ∉ chars (output_file_name config)) →
   asset_reference config m =
     assets_root_path config +:+ "/" +:+ output_file_name config +:+
     "_" +:+ m +:+ ".tiff").
Proof.
  intros Hm Hroot Hslash Hrel.
  assert (asset_reference config m =
          PyStr.replace "\" "/" (assets_root_path config) +:+ "/" +:+
          PyStr.replace "\" "/" (output_file_name config) +:+
          "_" +:+ m +:+ ".tiff") as Hform.
  { unfold asset_reference, make_asset_map_name, os_path_join.
    rewrite (make_map_name_relative _ m Hrel).
    apply eqb_false in Hroot. rewrite Hroot, Hslash. cbn [orb].
    unfold make_map_name. rewrite !replace_app.
    do 3 f_equal. rewrite (replace_id _ _ m); [done|].
    revert Hm. unfold suffixes. intros Hm.
    repeat (apply elem_of_cons in Hm as [->|Hm]);
      [..|by apply elem_of_nil in Hm]; compute_done. }
  split; [done|]. intros H1 H2. by rewrite Hform, !replace_id.
Qed.

Lemma asset_reference_form_witness :
  let config :=
    mkBuildConfig false false false false false false true false
      "base" "wall" "/w" "Assets\Rocks" in
  let config' :=
    mkBuildConfig false false false false false false true false
      "base" "wall" "/w" "Assets" in
  asset_reference config "normal" = "Assets/Rocks/wall_normal.tiff" ∧
  asset_reference config' "normal" = "Assets/wall_normal.tiff".
Proof.
  intros config config'. split.
  - destruct (asset_reference_form config "normal") as [H _];
      [compute_done|done|done|done|].
    rewrite H. reflexivity.
  - destruct (asset_reference_form config' "normal") as [_ H];
      [compute_done|done|done|done|].
    rewrite H; [reflexivity|compute_done|compute_done].
Defined.

(** ** What a run prints *)

Lemma when_print_stdout_inv b line st l :
  l ∈ st_stdout (when_print b line st) →
  l ∈ st_stdout st ∨ (b = true ∧ l = line).
Proof.
  destruct b; [|by left]. cbn. intros [H|H]%elem_of_app; [by left|].
  apply list_elem_of_singleton in H. by right.
Qed.

Lemma rename_loop_stdout_inv ms st l :
  l ∈ st_stdout (foldl (λ s e, rename_step e s) st ms) →
  l ∈ st_stdout st ∨
  ∃ name m key, (name, m, key, true) ∈ ms ∧
    l = not_renamed_msg name (output_file_name (st_config st)) m.
Proof.
  revert st. induction ms as [|e ms IH]; intros st H; [by left|].
  cbn [foldl] in H. apply IH in H.
  rewrite (proj1 (rename_step_frame e st)) in H.
  destruct H as [H|(name & m & key & Hin & ->)].
  - destruct e as [[[name m] key] [|]]; [|by left].
    unfold rename_step in H.
    destruct (st_files st !! _); [by left|]. cbn in H.
    apply elem_of_app in H as [H|H]; [by left|].
    apply list_elem_of_singleton in H. right. exists name, m, key.
    split; [by left|done].
  - right. exists name, m, key. split; [by right|done].
Qed.

Lemma add_loop_stdout_inv ms st l :
  l ∈ st_stdout (foldl (λ s e, add_step e s) st ms) →
  l ∈ st_stdout st ∨
  ∃ name m key, (name, m, key, true) ∈ ms ∧
    st_files st !! dst_of (st_config st) m = None ∧
    l = not_added_msg name (output_file_name (st_config st)) m.
Proof.
  revert st. induction ms as [|e ms IH]; intros st H; [by left|].
  cbn [foldl] in H. apply IH in H.
  destruct (add_step_frame e st) as [Hc Hf]. rewrite Hc, Hf in H.
  destruct H as [H|(name & m & key & Hin & Hmiss & ->)].
  - destruct e as [[[name m] key] [|]]; [|by left].
    unfold add_step in H.
    destruct (st_files st !! make_file_map_name _ _ _) eqn:Hdst; [by left|].
    cbn in H. apply elem_of_app in H as [H|H]; [by left|].
    apply list_elem_of_singleton in H. right. exists name, m, key.
    split; [by left|]. split; [done|done].
  - right. exists name, m, key. split; [by right|done].
Qed.

Lemma renamed_state_stdout_inv verbose st l :
  l ∈ st_stdout (renamed_state verbose st) →
  l ∈ st_stdout st ∨ (verbose = true ∧ l ∈ verbose_lines) ∨
  ∃ name m key, (name, m, key, true) ∈ maps (st_config st) ∧
    output_file_name (st_config st) ≠ "" ∧
    output_file_name (st_config st) ≠ input_file_name (st_config st) ∧
    l = not_renamed_msg name (output_file_name (st_config st)) m.
Proof.
  unfold renamed_state, rename_state. cbv zeta.
  set (st1 := when_print verbose "[V] Building material file..."
                (mkState (st_config st) [] (st_files st) (st_stdout st))).
  assert (st_config st1 = st_config st) as Hc1 by (by destruct verbose).
  assert (∀ l, l ∈ st_stdout st1 →
               l ∈ st_stdout st ∨ (verbose = true ∧ l ∈ verbose_lines)) as H1.
  { intros l' [H|[-> ->]]%when_print_stdout_inv; [by left|].
    right. split; [done|compute_done]. }
  rewrite Hc1.
  destruct (PyStr.eqb (output_file_name (st_config st))
                      (input_file_name (st_config st))) eqn:Hsame.
  { rewrite orb_true_r. cbn [st_stdout].
    intros [H|[-> ->]]%when_print_stdout_inv.
    - destruct (H1 _ H) as [?|?]; [by left|by right; left].
    - right. left. split; [done|compute_done]. }
  apply eqb_false in Hsame.
  destruct (PyStr.eqb (output_file_name (st_config st)) "") eqn:Hempty.
  { cbn [orb st_stdout]. intros [H|[-> ->]]%when_print_stdout_inv.
    - destruct (H1 _ H) as [?|?]; [by left|by right; left].
    - right. left. split; [done|compute_done]. }
  apply eqb_false in Hempty.
  cbn [orb]. intros [H|[-> ->]]%when_print_stdout_inv;
    [|right; left; split; [done|compute_done]].
  apply rename_loop_stdout_inv in H as [H|(name & m & key & Hin & ->)].
  - apply when_print_stdout_inv in H as [H|[-> ->]];
      [|right; left; split; [done|compute_done]].
    destruct (H1 _ H) as [?|?]; [by left|by right; left].
  - right. right. exists name, m, key.
    destruct (when_print_frame verbose "    [V] Renaming texture files..." st1)
      as (-> & _). by rewrite Hc1.
Qed.

(** X13. Every line a run prints on its way through [build] is one of the
    five verbose log lines, and then [-v] was given, or the diagnostic of
    an enabled category: "not renamed", printed only when the output base
    is given and differs from the input base, or "not added", printed only
    when the file of the category is missing when the material is
    assembled.  A run without [-v] prints nothing but these diagnostics. *)
Theorem printed_lines cwd fs argv verbose st line :
  reaches_build cwd fs argv verbose st →
  line ∈ st_stdout (run cwd fs argv).2 →
  (verbose = true ∧ line ∈ verbose_lines) ∨
  (∃ name m key, (name, m, key, true) ∈ maps (st_config st) ∧
     output_file_name (st_config st) ≠ "" ∧
     output_file_name (st_config st) ≠ input_file_name (st_config st) ∧
     line = not_renamed_msg name (output_file_name (st_config st)) m) ∨
  (∃ name m key, (name, m, key, true) ∈ maps (st_config st) ∧
     let config := st_config (run cwd fs argv).2 in
     st_files (run cwd fs argv).2 !! dst_of config m = None ∧
     line = not_added_msg name (output_file_name config) m).
Proof.
  intros Hreach. rewrite (reaches_build_run _ _ _ _ _ Hreach). cbn [snd].
  destruct (reaches_build_state _ _ _ _ _ Hreach) as (_ & Hout & _).
  destruct (built_state_facts verbose st) as (Hc & _ & Hf & _).
  destruct (assembled_state_frame verbose st) as [Hac Haf].
  unfold built_state at 1. cbv zeta.
  intros [H|[-> ->]]%when_print_stdout_inv;
    [|left; split; [done|compute_done]].
  cbn [set_files st_stdout] in H. unfold assembled_state in H.
  apply add_loop_stdout_inv in H as [H|(name & m & key & Hin & Hmiss & ->)].
  - apply renamed_state_stdout_inv in H as [H|[H|H]].
    + rewrite Hout in H. by apply elem_of_nil in H.
    + by left.
    + right. by left.
  - right. right. exists name, m, key. split; [done|]. cbv zeta.
    rewrite Hc, Hac, Hf, Haf. split; [|done].
    rewrite lookup_insert_ne; [done|]. unfold dst_of.
    apply material_path_not_texture.
Qed.

Lemma printed_lines_witness :
  let fs : gmap string string := {["/w/base_albedo.tiff" := "a"]} in
  let argv := ["-f"; "base"; "--dif"; "--met"] in
  st_stdout (run "/w" fs argv).2 = [not_added_msg "Metallic" "base" "metalness"] ∧
  ∃ name m key,
    (name, m, key, true) ∈
      maps (mkBuildConfig false false true false false true false false
              "base" "" "/w" "Assets") ∧
    st_files (run "/w" fs argv).2 !! dst_of (st_config (run "/w" fs argv).2) m
      = None ∧
    not_added_msg "Metallic" "base" "metalness" =
      not_added_msg name (output_file_name (st_config (run "/w" fs argv).2)) m.
Proof.
  intros fs argv.
  assert (st_stdout (run "/w" fs argv).2 =
          [not_added_msg "Metallic" "base" "metalness"]) as Hout
    by (by vm_compute).
  split; [exact Hout|].
  destruct (printed_lines "/w" fs argv false
              (with_config
                 (mkBuildConfig false false true false false true false false
                    "base" "" "/w" "Assets")
                 (initial_state "/w" fs))
              (not_added_msg "Metallic" "base" "metalness"))
    as [[H _]|[(name & m & key & _ & H & _)|H]].
  - exists [("-f", "base"); ("--dif", ""); ("--met", "")], [].
    by repeat split.
  - rewrite Hout. by left.
  - discriminate H.
  - exfalso. by apply H.
  - exact H.
Defined.

(** ** An output base equal to the input base *)

Lemma eqb_true_refl s : PyStr.eqb s s = true.
Proof. by apply eqb_true. Qed.

Lemma renamed_state_same_output verbose config st :
  renamed_state verbose
    (with_config (set_output_file_name (input_file_name config) config) st) =
  renamed_state verbose (with_config (set_output_file_name "" config) st).
Proof.
  unfold renamed_state, rename_state. cbv zeta.
  destruct verbose;
    cbn [when_print print_state with_config st_config st_material st_files
         st_stdout set_output_file_name output_file_name input_file_name];
    rewrite eqb_true_refl, orb_true_r; reflexivity.
Qed.

(** X14. Giving as output base the input base itself is the same as giving
    none: [build] ends in the same state (same files, same material, same
    output, same resolved configuration). *)
Theorem output_equal_to_input verbose config st :
  build verbose
    (with_config (set_output_file_name (input_file_name config) config) st) =
  build verbose (with_config (set_output_file_name "" config) st).
Proof.
  rewrite !runs_build. f_equal.
  unfold built_state, assembled_state.
  rewrite renamed_state_same_output. reflexivity.
Qed.

(** ** A final slash on the textures directory *)

Lemma rev_app_app a b acc :
  String.rev_app (a +:+ b) acc = String.rev_app b (String.rev_app a acc).
Proof.
  revert acc. induction a as [|c a IH]; intros acc; [done|].
  change (String c a +:+ b) with (String c (a +:+ b)). cbn. apply IH.
Qed.

Lemma endswith_app_slash d : PyStr.endswith (d +:+ "/") "/" = true.
Proof.
  unfold PyStr.endswith, String.rev. rewrite rev_app_app.
  cbn [String.rev_app String.prefix].
  destruct (ascii_dec "/" "/"); [|done]. by destruct (String.rev_app d "").
Qed.

(** [posixpath.join] adds the slash that the directory lacks. *)
Lemma os_path_join_slash d x :
  d ≠ "" → PyStr.endswith d "/" = false →
  os_path_join (d +:+ "/") x = os_path_join d x.
Proof.
  intros Hd Hslash. unfold os_path_join.
  destruct (PyStr.startswith x "/"); [done|].
  rewrite endswith_app_slash, orb_true_r, Hslash.
  apply eqb_false in Hd. rewrite Hd. cbn [orb]. apply app_assoc_str.
Qed.

Section Retarget.
Variable dir : string.
Variable st0 : state.
Hypothesis same_paths :
  ∀ x, os_path_join dir x = os_path_join (textures_dir_path (st_config st0)) x.

Lemma retarget_rename_step e st :
  keeps_dir st0 st →
  rename_step e (retarget dir st) = retarget dir (rename_step e st) ∧
  keeps_dir st0 (rename_step e st).
Proof.
  intros Hk. split; [|unfold keeps_dir;
                      by rewrite (proj1 (rename_step_frame e st))].
  destruct e as [[[name m] key] [|]]; [|done].
  unfold rename_step, make_file_map_name, retarget.
  cbn [with_config st_config st_files textures_dir_path input_file_name
       output_file_name set_textures_dir_path].
  rewrite !same_paths, <- Hk.
  by destruct (st_files st !! _).
Qed.

Lemma retarget_add_step e st :
  keeps_dir st0 st →
  add_step e (retarget dir st) = retarget dir (add_step e st) ∧
  keeps_dir st0 (add_step e st).
Proof.
  intros Hk. split; [|unfold keeps_dir;
                      by rewrite (proj1 (add_step_frame e st))].
  destruct e as [[[name m] key] [|]]; [|done].
  unfold add_step, make_file_map_name, retarget.
  cbn [with_config st_config st_files textures_dir_path input_file_name
       output_file_name set_textures_dir_path].
  rewrite !same_paths, <- Hk.
  by destruct (st_files st !! _).
Qed.

Lemma retarget_foldl (step : map_entry → state → state) ms st :
  (∀ e s, keeps_dir st0 s →
     step e (retarget dir s) = retarget dir (step e s) ∧
     keeps_dir st0 (step e s)) →
  keeps_dir st0 st →
  foldl (λ s e, step e s) (retarget dir st) ms =
    retarget dir (foldl (λ s e, step e s) st ms) ∧
  keeps_dir st0 (foldl (λ s e, step e s) st ms).
Proof.
  intros Hstep. revert st. induction ms as [|e ms IH]; intros st Hk; [done|].
  cbn [foldl]. destruct (Hstep e st Hk) as [-> Hk']. by apply IH.
Qed.

Lemma retarget_when_print b line st :
  when_print b line (retarget dir st) = retarget dir (when_print b line st) ∧
  (keeps_dir st0 st → keeps_dir st0 (when_print b line st)).
Proof. by destruct b. Qed.

Lemma retarget_renamed_state verbose :
  renamed_state verbose (retarget dir st0) =
    retarget dir (renamed_state verbose st0) ∧
  keeps_dir st0 (renamed_state verbose st0).
Proof.
  unfold renamed_state, rename_state. cbv zeta.
  set (st1 := when_print verbose "[V] Building material file..."
                (mkState (st_config st0) [] (st_files st0) (st_stdout st0))).
  assert (when_print verbose "[V] Building material file..."
            (mkState (st_config (retarget dir st0)) []
               (st_files (retarget dir st0)) (st_stdout (retarget dir st0)))
          = retarget dir st1) as -> by (subst st1; by destruct verbose).
  assert (keeps_dir st0 st1) as Hk1 by (subst st1; by destruct verbose).
  assert (st_config st1 = st_config st0) as Hc1
    by (subst st1; by destruct verbose).
  change (maps (st_config (retarget dir st0))) with (maps (st_config st0)).
  change (output_file_name (st_config (retarget dir st1)))
    with (output_file_name (st_config st1)).
  change (input_file_name (st_config (retarget dir st1)))
    with (input_file_name (st_config st1)).
  destruct (_ || _).
  - rewrite (proj1 (retarget_when_print verbose _ st1)).
    split; [done|]. unfold keeps_dir. cbn [st_config].
    destruct (when_print_frame verbose
                "    [V] Skipping texture files renaming." st1) as (-> & _).
    exact Hk1.
  - rewrite (proj1 (retarget_when_print verbose _ st1)).
    destruct (retarget_foldl rename_step (maps (st_config st0))
                (when_print verbose "    [V] Renaming texture files..." st1)
                retarget_rename_step) as [-> Hk2].
    { by apply retarget_when_print. }
    rewrite (proj1 (retarget_when_print verbose _ _)).
    split; [done|]. by apply retarget_when_print.
Qed.

Lemma retarget_built_state verbose :
  built_state verbose (retarget dir st0) =
  retarget dir (built_state verbose st0).
Proof.
  unfold built_state, assembled_state. cbv zeta.
  destruct (retarget_renamed_state verbose) as [-> Hk].
  change (maps (st_config (retarget dir st0))) with (maps (st_config st0)).
  destruct (retarget_foldl add_step (maps (st_config st0))
              (renamed_state verbose st0) retarget_add_step Hk) as [-> Hk'].
  unfold keeps_dir in Hk'.
  fold (assembled_state verbose st0) in Hk' |- *.
  rewrite <- (proj1 (retarget_when_print verbose _ _)). f_equal.
  unfold retarget, with_config, set_files, material_path.
  cbn [st_config st_material st_files st_stdout textures_dir_path
       output_file_name set_textures_dir_path].
  by rewrite same_paths, Hk'.
Qed.
End Retarget.

(** X15. A final slash on the textures directory makes no difference: for
    a non-empty directory [d] without final slash, [build] with [d/]
    returns as with [d], leaving the same files, the same material and the
    same output. *)
Theorem textures_dir_final_slash verbose st :
  let d := textures_dir_path (st_config st) in
  d ≠ "" → PyStr.endswith d "/" = false →
  build verbose (retarget (d +:+ "/") st) =
    (Ret tt, retarget (d +:+ "/") (built_state verbose st)) ∧
  st_files (build verbose (retarget (d +:+ "/") st)).2 =
    st_files (build verbose st).2 ∧
  st_material (build verbose (retarget (d +:+ "/") st)).2 =
    st_material (build verbose st).2 ∧
  st_stdout (build verbose (retarget (d +:+ "/") st)).2 =
    st_stdout (build verbose st).2.
Proof.
  intros d Hd Hslash. rewrite !runs_build.
  rewrite (retarget_built_state (d +:+ "/") st).
  - done.
  - intros x. by apply os_path_join_slash.
Qed.

Lemma textures_dir_final_slash_witness :
  let fs : gmap string string := {["tex/base_albedo.tiff" := "a"]} in
  let st := with_config
              (mkBuildConfig false false true false false false false false
                 "base" "wall" "tex" "Assets")
              (initial_state "/w" fs) in
  st_files (build false (retarget "tex/" st)).2 = st_files (build false st).2 ∧
  st_material (build false (retarget "tex/" st)).2 =
    st_material (build false st).2 ∧
  st_stdout (build false (retarget "tex/" st)).2 = st_stdout (build false st).2.
Proof.
  intros fs st.
  destruct (textures_dir_final_slash false st) as (_ & Hf & Hm & Ho);
    [done|done|].
  by split.
Defined.

(** ** Clustered short options *)

Lemma getopt_clustered c c' s rest :
  c ∈ ["h"; "v"]%char → c' ≠ "-"%char →
  getopt (String "-" (String c (String c' s)) :: rest) shortopts longopts =
  getopt (String "-" (String c "") :: String "-" (String c' s) :: rest)
    shortopts longopts.
Proof.
  intros Hc Hc'. unfold getopt. cbn [length].
  assert (c ≠ "-"%char) as Hne.
  { intros ->. revert Hc. compute_done. }
  rewrite !getopt_while_short by done.
  assert (short_has_arg c shortopts = Ok false) as Hflag.
  { repeat (apply elem_of_cons in Hc as [->|Hc]);
      [..|by apply elem_of_nil in Hc]; done. }
  cbn [do_shorts]. rewrite Hflag.
  by rewrite getopt_while_short.
Qed.

(** X16. The flags [-h] and [-v] may be written in one argument with the
    short options that follow them: [-vf base] is the same run as
    [-v -f base]. *)
Theorem clustered_flags cwd fs c c' s rest :
  c ∈ ["h"; "v"]%char → c' ≠ "-"%char →
  run cwd fs (String "-" (String c (String c' s)) :: rest) =
  run cwd fs (String "-" (String c "") :: String "-" (String c' s) :: rest).
Proof.
  intros Hc Hc'. unfold run, main. by rewrite getopt_clustered.
Qed.

Lemma clustered_flags_witness :
  run "/w" ∅ ["-vfbase"; "--dif"] = run "/w" ∅ ["-v"; "-fbase"; "--dif"].
Proof.
  apply (clustered_flags "/w" ∅ "v" "f" "base" ["--dif"]); [compute_done|done].
Defined.

(** ** Renaming there and back *)

(** When the source of an entry is missing, the loop leaves its source and
    its destination as they are. *)
Lemma rename_loop_missing_unchanged ms st name m key q :
  NoDup (entry_suffix <$> ms) →
  Forall (λ e, entry_suffix e ∈ suffixes) ms →
  (name, m, key, true) ∈ ms →
  st_files st !! src_of (st_config st) m = None →
  q = src_of (st_config st) m ∨ q = dst_of (st_config st) m →
  st_files (foldl (λ s e, rename_step e s) st ms) !! q = st_files st !! q.
Proof.
  revert st. induction ms as [|e ms IH]; intros st Hnodup Hknown Hin Hsrc Hq;
    [by apply elem_of_nil in Hin|].
  apply NoDup_cons in Hnodup as [Hfresh Hnodup].
  apply Forall_cons in Hknown as [He Hknown].
  assert (st_config (rename_step e st) = st_config st) as Hcfg
    by apply rename_step_frame.
  cbn [foldl]. apply elem_of_cons in Hin as [<-|Hin].
  - change (entry_suffix (name, m, key, true)) with m in Hfresh, He.
    rewrite rename_loop_other.
    + unfold rename_step. fold (src_of (st_config st) m). by rewrite Hsrc.
    + rewrite Hcfg.
      pose proof (other_entries_apart (st_config st) ms m He Hfresh Hknown)
        as Hapart.
      destruct Hq as [-> | ->]; apply Hapart.
  - assert (m ∈ suffixes) as Hm.
    { rewrite Forall_forall in Hknown. apply (Hknown _ Hin). }
    assert (m ≠ entry_suffix e) as Hne.
    { intros ->. apply Hfresh. apply list_elem_of_fmap.
      by exists (name, entry_suffix e, key, true). }
    assert (∀ q', q' = src_of (st_config st) m ∨ q' = dst_of (st_config st) m →
              st_files (rename_step e st) !! q' = st_files st !! q') as Hsame.
    { intros q' Hq'. apply (rename_loop_other [e] st). constructor; [|done].
      destruct Hq' as [-> | ->]; split; by apply make_file_map_name_disjoint. }
    rewrite <- (Hsame q Hq).
    apply IH; [done..| |]; rewrite Hcfg; [|done].
    rewrite Hsame; [done|by left].
Qed.

(** What the loop does to the two files of an enabled entry. *)
Lemma rename_loop_pair ms st name m key :
  NoDup (entry_suffix <$> ms) →
  Forall (λ e, entry_suffix e ∈ suffixes) ms →
  (name, m, key, true) ∈ ms →
  src_of (st_config st) m ≠ dst_of (st_config st) m →
  let final := foldl (λ s e, rename_step e s) st ms in
  st_files final !! src_of (st_config st) m = None ∧
  st_files final !! dst_of (st_config st) m =
    match st_files st !! src_of (st_config st) m with
    | Some data => Some data
    | None => st_files st !! dst_of (st_config st) m
    end.
Proof.
  intros Hnodup Hknown Hin Hne. cbv zeta.
  split; [by apply (rename_loop_source_gone ms st name m key)|].
  pose proof (rename_loop_entry ms st name m key Hnodup Hknown Hin) as Hmoved.
  cbv zeta in Hmoved.
  destruct (st_files st !! src_of (st_config st) m) as [data|] eqn:Hsrc.
  - by apply Hmoved.
  - apply (rename_loop_missing_unchanged ms st name m key); auto.
Qed.

(** Renaming from [a] to [b] and then from [b] to [a] puts every file back,
    when no destination of the first renaming was there before; the
    material file written in between is left where it is. *)
Lemma rename_loops_round_trip config st st' data p :
  st_config st = config → st_config st' = swap_names config →
  st_files st' =
    <[material_path config := data]>
      (st_files (foldl (λ s e, rename_step e s) st (maps config))) →
  (∀ name m key, (name, m, key, true) ∈ maps config →
     src_of config m ≠ dst_of config m ∧
     st_files st !! dst_of config m = None) →
  p ≠ material_path config →
  st_files (foldl (λ s e, rename_step e s) st' (maps config)) !! p =
  st_files st !! p.
Proof.
  intros Hc Hc' Hf' Hfree Hp.
  assert (∀ m, src_of (swap_names config) m = dst_of config m) as Hsrc'
    by done.
  assert (∀ m, dst_of (swap_names config) m = src_of config m) as Hdst'
    by done.
  assert (∀ x m, st_files st' !! make_file_map_name config x m =
                 st_files (foldl (λ s e, rename_step e s) st (maps config))
                 !! make_file_map_name config x m) as Htex.
  { intros x m. rewrite Hf'.
    apply lookup_insert_ne, material_path_not_texture. }
  destruct (decide (Exists (λ e : map_entry,
              e.2 = true ∧ (p = src_of config (entry_suffix e) ∨
                            p = dst_of config (entry_suffix e)))
              (maps config))) as [Hex|Hnot].
  - apply Exists_exists in Hex as ([[[name m] key] enabled] & Hin & He & Hq).
    cbn in He. subst enabled. change (entry_suffix _) with m in Hq.
    destruct (Hfree name m key Hin) as [Hne Hnone].
    pose proof (rename_loop_pair (maps config) st name m key
      (maps_suffixes_NoDup _) (maps_suffixes_known _) Hin) as H1.
    rewrite Hc in H1. destruct (H1 Hne) as [H1s H1d]. clear H1.
    pose proof (rename_loop_pair (maps config) st' name m key
      (maps_suffixes_NoDup _) (maps_suffixes_known _) Hin) as H2.
    rewrite Hc', Hsrc', Hdst' in H2.
    destruct (H2 (not_eq_sym Hne)) as [H2s H2d]. clear H2.
    unfold src_of, dst_of in H2d. rewrite !Htex in H2d.
    fold (src_of config m) in H2d. fold (dst_of config m) in H2d.
    rewrite H1d, H1s, Hnone in H2d.
    destruct Hq as [-> | ->].
    + rewrite H2d. by destruct (st_files st !! src_of config m).
    + by rewrite H2s, Hnone.
  - apply not_Exists_Forall in Hnot; [|apply _].
    rewrite Forall_forall in Hnot.
    assert (∀ name m key, (name, m, key, true) ∈ maps config →
              p ≠ src_of config m ∧ p ≠ dst_of config m) as Hother.
    { intros name m key Hin. specialize (Hnot _ Hin). cbn in Hnot.
      split; intros ->; apply Hnot; split; auto. }
    rewrite rename_loop_untouched.
    + rewrite Hf', lookup_insert_ne by done.
      apply rename_loop_untouched. intros name m key Hin. rewrite Hc.
      by apply (Hother name m key).
    + intros name m key Hin. rewrite Hc', Hsrc', Hdst'.
      destruct (Hother name m key Hin). by split.
Qed.

(** X17. Renaming can be undone: after [build] has renamed from an input
    base to an output base, [build] with the two names swapped, run on the
    files left, gives every file its former name and content back, the two
    material files apart, provided that no destination of the first
    renaming was there before and that sources and destinations are
    different paths. *)
Theorem rename_round_trip verbose verbose' config fs out out' p :
  output_file_name config ≠ "" → input_file_name config ≠ "" →
  output_file_name config ≠ input_file_name config →
  (∀ name m key, (name, m, key, true) ∈ maps config →
     src_of config m ≠ dst_of config m ∧ fs !! dst_of config m = None) →
  p ≠ material_path config → p ≠ material_path (swap_names config) →
  let first := (build verbose (mkState config [] fs out)).2 in
  let second :=
    (build verbose' (mkState (swap_names config) [] (st_files first) out')).2 in
  st_files second !! p = fs !! p.
Proof.
  intros Hout Hin Hne Hfree Hp Hp'. cbv zeta. rewrite !runs_build. cbn [snd].
  set (st := mkState config [] fs out).
  set (st' := mkState (swap_names config) [] (st_files (built_state verbose st))
                out').
  destruct (built_state_files_eq verbose st) as (_ & _ & Hf).
  destruct (built_state_files_eq verbose' st') as (Hc' & _ & _).
  cbv zeta in Hf, Hc'.
  destruct (renamed_state_loop verbose st Hout Hne)
    as (st0 & Hc0 & Hf0 & _ & Hrc & _ & Hrf & _).
  destruct (renamed_state_loop verbose' st')
    as (st0' & Hc0' & Hf0' & _ & Hrc' & _ & Hrf' & _); [done|by apply not_eq_sym|].
  cbn [st_config st_files st st'] in Hc0, Hf0, Hrc, Hrf, Hc0', Hf0', Hrc', Hrf'.
  rewrite built_state_files by (by rewrite Hc', Hrc').
  rewrite Hrf'.
  change (maps (swap_names config)) with (maps config).
  rewrite (rename_loops_round_trip config st0 st0'
             (dumps (material_json (listing config (st_files
                (foldl (λ s e, rename_step e s) st0 (maps config)))))) p);
    try done.
  - by rewrite Hf0.
  - by rewrite Hf0', Hf, Hrc, Hrf.
  - intros name m key Hm. rewrite Hf0. by apply (Hfree name m key).
Qed.

Lemma rename_round_trip_witness :
  let fs : gmap string string :=
    {["/w/base_albedo.tiff" := "a"; "/w/base_normal.tiff" := "n"]} in
  let config :=
    mkBuildConfig false false true false false true false false
      "base" "wall" "/w" "Assets" in
  let first := (build false (mkState config [] fs [])).2 in
  let second :=
    (build false (mkState (swap_names config) [] (st_files first) [])).2 in
  st_files first !! "/w/base_albedo.tiff" = None ∧
  st_files second !! "/w/base_albedo.tiff" = Some "a" ∧
  st_files second !! "/w/wall_albedo.tiff" = None.
Proof.
  intros fs config first second.
  assert (∀ p, p ≠ "/w/wall.material" → p ≠ "/w/base.material" →
               st_files second !! p = fs !! p) as H.
  { intros p H1 H2.
    by apply (rename_round_trip false false config fs [] [] p). }
  split; [by vm_compute|]. split; by rewrite H.
Defined.
